(** * Conversational AI with RAG: the provider registry and the pipeline

    A shallow embedding of [src/llm_manager.py] and [src/rag_pipeline.py].
    Python dictionaries keyed by strings are [gmap string _], the module-level
    singletons [llm_manager] and [vector_store] are fields of one explicit
    process state, and a Python call is a state-passing function whose
    outcome is either a returned value or a raised exception. *)

From stdpp Require Import gmap strings list pretty sorting.

(** ** Python values *)

(** The result of a Python call: a value, or an exception carrying [str(e)]. *)
Inductive outcome (A : Type) : Type :=
  | Return (a : A)
  | Raise (e : string).
Arguments Return {A} a.
Arguments Raise {A} e.

(** A failure the caller can tell from an answer: the call does not return
    a string, it raises. *)
Definition structured_failure {A} (r : outcome A) : Prop :=
  ∃ e, r = Raise e.

(** A chat turn, the dict [{"role": ..., "content": ...}]. *)
Record Message : Type := { role : string; content : string }.

(** Values stored in a metadata dict. *)
Inductive MetaValue : Type :=
  | MStr (s : string)
  | MInt (n : nat)
  | MBool (b : bool).

(** A document or chunk dict; [doc_metadata = None] is a dict without the
    ["metadata"] key, which [doc.get("metadata", {})] reads as [{}]. *)
Record Document : Type := {
  doc_id : string;
  doc_text : string;
  doc_metadata : option (gmap string MetaValue)
}.

(** The dict returned by [get_model_info]. *)
Record ModelInfo : Type := {
  info_provider : string;
  info_model : string;
  info_type : string;
  info_capabilities : list string
}.

(** Records written through the module loggers. *)
Inductive LogRecord : Type :=
  | LogInfo (s : string)
  | LogWarning (s : string)
  | LogError (s : string).

(** The newline character and Python's [sep.join(parts)]. *)
Definition nl : string := String (Ascii.ascii_of_nat 10) "".

Definition join (sep : string) (parts : list string) : string :=
  String.concat sep parts.

(** Python truthiness of an optional string argument: [None] and [""] are
    falsy, so [a or b] keeps [a] only when it is a non-empty string. *)
Definition py_or (a b : option string) : option string :=
  match a with
  | Some (String _ _) => a
  | _ => b
  end.

(** ** Providers ([BaseLLM] and its subclasses)

    [Ext] is the state of everything outside the process that a provider
    call can read and change (the hosted API, the sampler of a local model).
    A call of [generate] yields its outcome and the new outside state, and
    writes the records [generate_log] through the logger of the module. *)
Record BaseLLM (Ext : Type) : Type := {
  generate : list Message → Ext → outcome string * Ext;
  generate_log : list Message → Ext → list LogRecord;
  get_model_info : ModelInfo
}.
Arguments generate {Ext} _ _ _.
Arguments generate_log {Ext} _ _ _.
Arguments get_model_info {Ext} _.

(** The LangChain message classes the OpenAI provider converts to. *)
Inductive LangchainMessage : Type :=
  | SystemMessage (c : string)
  | HumanMessage (c : string).

Section Providers.
Context {Ext : Type}.

(** The conversion loop of [OpenAILLM.generate]: every turn that is not a
    system turn is sent as a human message. *)
Definition langchain_messages (messages : list Message) : list LangchainMessage :=
  (λ msg, if decide (role msg = "system")
          then SystemMessage (content msg)
          else HumanMessage (content msg)) <$> messages.

(** [OpenAILLM.generate]: the reply of the client; an exception [e] of the
    client is logged as an error and becomes the text [Error: e]. *)
Definition OpenAILLM (model_name : string)
    (invoke : list LangchainMessage → Ext → outcome string * Ext) : BaseLLM Ext :=
  {| generate messages x :=
       match invoke (langchain_messages messages) x with
       | (Return c, x') => (Return c, x')
       | (Raise e, x') => (Return ("Error: " +:+ e), x')
       end;
     generate_log messages x :=
       match invoke (langchain_messages messages) x with
       | (Return c, _) => []
       | (Raise e, _) =>
           [LogError ("Error generating response with OpenAI: " +:+ e)]
       end;
     get_model_info :=
       {| info_provider := "openai"; info_model := model_name;
          info_type := "proprietary";
          info_capabilities := ["chat"; "completion"; "function_calling"] |} |}.

(** [HuggingFaceLLM._format_messages] *)
Definition _format_messages (messages : list Message) : string :=
  foldl (λ formatted msg,
           if decide (role msg = "system")
           then formatted +:+ "System: " +:+ content msg +:+ nl
           else if decide (role msg = "user")
           then formatted +:+ "User: " +:+ content msg +:+ nl
           else if decide (role msg = "assistant")
           then formatted +:+ "Assistant: " +:+ content msg +:+ nl
           else formatted)
        "" messages
  +:+ "Assistant: ".

(** [HuggingFaceLLM.generate]: the reply of the model to the formatted
    prompt; an exception [e] of the model is logged as an error and becomes
    the text [Error: e]. *)
Definition HuggingFaceLLM (model_name : string)
    (invoke : string → Ext → outcome string * Ext) : BaseLLM Ext :=
  {| generate messages x :=
       match invoke (_format_messages messages) x with
       | (Return c, x') => (Return c, x')
       | (Raise e, x') => (Return ("Error: " +:+ e), x')
       end;
     generate_log messages x :=
       match invoke (_format_messages messages) x with
       | (Return c, _) => []
       | (Raise e, _) =>
           [LogError ("Error generating response with Hugging Face: " +:+ e)]
       end;
     get_model_info :=
       {| info_provider := "huggingface"; info_model := model_name;
          info_type := "open_source";
          info_capabilities := ["text_generation"; "chat"] |} |}.
End Providers.

(** ** The process state *)

(** The fields of the [LLMManager] object. *)
Record Manager (Ext : Type) : Type := {
  llms : gmap string (BaseLLM Ext);
  active_provider : option string
}.
Arguments llms {Ext} _.
Arguments active_provider {Ext} _.

(** What the index keeps for a chunk id. *)
Record Entry (Vec : Type) : Type := {
  entry_embedding : Vec;
  entry_text : string;
  entry_metadata : gmap string MetaValue
}.
Arguments entry_embedding {Vec} _.
Arguments entry_text {Vec} _.
Arguments entry_metadata {Vec} _.

(** The module-level singletons, the outside world, the log, and a ghost
    trace [calls] of the provider invocations made so far (the provider
    object and the turns it was given). *)
Record World (Ext Vec : Type) : Type := {
  llm_manager : Manager Ext;
  vector_store : gmap string (Entry Vec);
  ext : Ext;
  log : list LogRecord;
  calls : list (BaseLLM Ext * list Message)
}.
Arguments llm_manager {Ext Vec} _.
Arguments vector_store {Ext Vec} _.
Arguments ext {Ext Vec} _.
Arguments log {Ext Vec} _.
Arguments calls {Ext Vec} _.

(** ** The monad of Python calls *)

Definition Py (W A : Type) : Type := W → outcome A * W.

Global Instance Py_ret {W} : MRet (Py W) := λ A a w, (Return a, w).

Global Instance Py_bind {W} : MBind (Py W) := λ A B k m w,
  match m w with
  | (Return a, w') => k a w'
  | (Raise e, w') => (Raise e, w')
  end.

Definition raise {W A} (e : string) : Py W A := λ w, (Raise e, w).

(** [try: body  except Exception as e: handler(e)]; what the body did to the
    state before raising stays done. *)
Definition try_except {W A} (body : Py W A) (handler : string → Py W A) : Py W A :=
  λ w, match body w with
       | (Return a, w') => (Return a, w')
       | (Raise e, w') => handler e w'
       end.

Section Effects.
Context {Ext Vec : Type}.
Abbreviation W := (World Ext Vec).

Definition get_manager : Py W (Manager Ext) := λ w, (Return (llm_manager w), w).

Definition get_store : Py W (gmap string (Entry Vec)) :=
  λ w, (Return (vector_store w), w).

Definition logger (r : LogRecord) : Py W unit :=
  λ w, (Return tt,
        {| llm_manager := llm_manager w; vector_store := vector_store w;
           ext := ext w; log := log w ++ [r]; calls := calls w |}).

(** The state once a record is logged. *)
Definition logged (r : LogRecord) (w : W) : W := (logger r w).2.

Definition set_manager (m : Manager Ext) : Py W unit :=
  λ w, (Return tt,
        {| llm_manager := m; vector_store := vector_store w;
           ext := ext w; log := log w; calls := calls w |}).

Definition set_store (s : gmap string (Entry Vec)) : Py W unit :=
  λ w, (Return tt,
        {| llm_manager := llm_manager w; vector_store := s;
           ext := ext w; log := log w; calls := calls w |}).

(** Run a provider against the outside world: its records go to the log,
    and the invocation is put on the trace. *)
Definition invoke_provider (llm : BaseLLM Ext) (messages : list Message)
    : Py W string :=
  λ w, let '(r, x') := generate llm messages (ext w) in
       (r, {| llm_manager := llm_manager w; vector_store := vector_store w;
              ext := x'; log := log w ++ generate_log llm messages (ext w);
              calls := calls w ++ [(llm, messages)] |}).
End Effects.

(** ** [LLMManager] *)
Module LLMManager.
Section LLMManager.
Context {Ext Vec : Type}.
Abbreviation W := (World Ext Vec).

(** [get_llm]: [self.llms.get(provider or self.active_provider)]; the
    lookup of [None] finds nothing. *)
Definition get_llm (m : Manager Ext) (provider : option string) : option (BaseLLM Ext) :=
  let provider := py_or provider (active_provider m) in
  name ← provider; llms m !! name.

(** [set_active_provider] *)
Definition set_active_provider (provider : string) : Py W bool :=
  m ← get_manager;
  if bool_decide (provider ∈ dom (llms m)) then
    set_manager {| llms := llms m; active_provider := Some provider |};;
    logger (LogInfo ("Active provider set to: " +:+ provider));;
    mret true
  else mret false.

(** [get_available_providers]: the keys of the registry, here in the order
    of the finite map and not in the order of insertion. *)
Definition get_available_providers (m : Manager Ext) : list string :=
  (map_to_list (llms m)).*1.

(** [generate_response]: the provider found by [get_llm] is run on the
    turns; without one the fixed error text is returned. *)
Definition generate_response (messages : list Message)
    (provider : option string) : Py W string :=
  m ← get_manager;
  match get_llm m provider with
  | None => mret "Error: No LLM provider available"
  | Some llm => invoke_provider llm messages
  end.

(** [get_provider_info] *)
Definition get_provider_info (m : Manager Ext) (provider : option string)
    : ModelInfo + string :=
  match get_llm m provider with
  | None => inr "Provider not available"
  | Some llm => inl (get_model_info llm)
  end.
End LLMManager.
End LLMManager.

(** ** The vector store *)
Module VectorStore.
Section VectorStore.
Context {Ext Vec : Type}.
Abbreviation W := (World Ext Vec).

(** The injected embedding function; [None] is a failure to embed. *)
Variable embed : string → option Vec.

Inductive EmbeddingError : Type := embedding_failed.

(** The index entry of a chunk, keyed by the chunk id. *)
Definition embed_chunk (chunk : Document) : option (string * Entry Vec) :=
  v ← embed (doc_text chunk);
  Some (doc_id chunk,
        {| entry_embedding := v; entry_text := doc_text chunk;
           entry_metadata := default ∅ (doc_metadata chunk) |}).

Definition write_entries (store : gmap string (Entry Vec))
    (entries : list (string * Entry Vec)) : gmap string (Entry Vec) :=
  foldl (λ s kv, <[kv.1 := kv.2]> s) store entries.

(** Modelled from the spec: [EmbeddingIndex.upsert], the body of
    [vector_store.add_documents], whose module [src/vector_store.py] is
    not among the sources. Every chunk of the batch is embedded; the
    entries are written (overwriting) under the chunk ids; one failure of
    the embedding function aborts the batch with nothing stored. *)
Definition upsert (chunks : list Document) (store : gmap string (Entry Vec))
    : gmap string (Entry Vec) + EmbeddingError :=
  match mapM embed_chunk chunks with
  | Some entries => inl (write_entries store entries)
  | None => inr embedding_failed
  end.

(** Modelled from the spec: [vector_store.add_documents], called by
    [process_documents] and the tests for its success flag; the flag is
    the result of [upsert]. *)
Definition add_documents (chunks : list Document) : Py W bool :=
  store ← get_store;
  match upsert chunks store with
  | inl store' => set_store store';; mret true
  | inr _ => mret false
  end.
End VectorStore.
End VectorStore.

(** ** [RAGPipeline] *)
Module RAGPipeline.
Section RAGPipeline.
Context {Ext Vec : Type}.
Abbreviation W := (World Ext Vec).

(** [self.text_splitter.split_text], the splitter configured in [__init__]. *)
Variable split_text : string → list string.

(** The embedding function of the vector store. *)
Variable embed : string → option Vec.

(** [vector_store.search]: the ranked chunks for a query, read off the
    index, or an exception. Its module is not among the sources. *)
Variable search : gmap string (Entry Vec) → string → outcome (list Document).

(** The chunk dict built for chunk [i] of [doc], of [total] chunks. *)
Definition chunk_doc (doc : Document) (total i : nat) (chunk : string) : Document :=
  {| doc_id := doc_id doc +:+ "_chunk_" +:+ pretty i;
     doc_text := chunk;
     doc_metadata :=
       Some (<["source_id" := MStr (doc_id doc)]>
               (<["total_chunks" := MInt total]>
                  (<["chunk_index" := MInt i]>
                     (default ∅ (doc_metadata doc))))) |}.

(** The inner loop of [process_documents]: the chunk dicts of one document. *)
Definition doc_chunks (doc : Document) : list Document :=
  let chunks := split_text (doc_text doc) in
  imap (chunk_doc doc (length chunks)) chunks.

(** The list [processed_chunks] after the outer loop. *)
Definition processed_chunks (documents : list Document) : list Document :=
  documents ≫= doc_chunks.

(** [process_documents] *)
Definition process_documents (documents : list Document) : Py W bool :=
  try_except
    (let processed := processed_chunks documents in
     success ← VectorStore.add_documents embed processed;
     (if success : bool then
        logger (LogInfo ("Processed " +:+ pretty (length documents)
                         +:+ " documents into " +:+ pretty (length processed)
                         +:+ " chunks"))
      else mret tt);;
     mret success)
    (λ e, logger (LogError ("Error processing documents: " +:+ e));;
          mret false).

Definition insufficient_information : string :=
  "I don't have enough information to answer that question. Please try rephrasing or ask about a different topic.".

(** [context_text]: the chunks in the order given, each under its rank. *)
Definition context_entry (i : nat) (doc : Document) : string :=
  "Context " +:+ pretty (i + 1) +:+ ": " +:+ doc_text doc.

Definition context_text (context : list Document) : string :=
  join (nl +:+ nl) (imap context_entry context).

(** The indentation the source gives the lines of the prompt. *)
Definition indent : string := "            ".

Definition system_header : string :=
  "You are a helpful AI assistant. Use the following context to answer the user's question. "
  +:+ nl +:+ indent
  +:+ "If the context doesn't contain enough information to answer the question, say so."
  +:+ nl +:+ indent
  +:+ nl +:+ indent +:+ "Context:"
  +:+ nl +:+ indent.

Definition system_footer : string :=
  nl +:+ indent
  +:+ nl +:+ indent +:+ "Answer the user's question based on the context provided.".

Definition system_message (context : list Document) : string :=
  system_header +:+ context_text context +:+ system_footer.

(** The two turns handed to the provider registry. *)
Definition prompt_messages (query : string) (context : list Document) : list Message :=
  [ {| role := "system"; content := system_message context |};
    {| role := "user"; content := query |} ].

(** [context = vector_store.search(query)] *)
Definition retrieve (query : string) : Py W (list Document) :=
  store ← get_store;
  match search store query with
  | Return found => mret found
  | Raise e => raise e
  end.

(** What the retrieval step of [generate_response] yields in a state: the
    context passed by the caller, or else the result of the search. *)
Definition retrieved (query : string) (context : option (list Document))
    (w : W) : outcome (list Document) :=
  match context with
  | None => search (vector_store w) query
  | Some given => Return given
  end.

(** [generate_response] *)
Definition generate_response (query : string) (context : option (list Document))
    (provider : option string) : Py W string :=
  try_except
    (context ← match context with
               | None => retrieve query
               | Some given => mret given
               end;
     match context with
     | [] =>
         logger (LogWarning "No relevant context found for query");;
         mret insufficient_information
     | _ :: _ =>
         response ← LLMManager.generate_response
                      (prompt_messages query context) provider;
         mret response
     end)
    (λ e, logger (LogError ("Error generating response: " +:+ e));;
          mret ("Error generating response: " +:+ e)).

(** [chat] *)
Definition chat (messages : list Message) (provider : option string) : Py W string :=
  try_except
    (match last messages with
     | None => mret "No messages provided"
     | Some last_message =>
         if decide (role last_message ≠ "user")
         then mret "Last message must be from user"
         else
           let query := content last_message in
           response ← generate_response query None provider;
           mret response
     end)
    (λ e, logger (LogError ("Error in chat: " +:+ e));;
          mret ("Error in chat: " +:+ e)).
End RAGPipeline.
End RAGPipeline.

(** ** The chunk splitter *)
Module ChunkSplitter.
Section ChunkSplitter.
(** [chunkSize] and [overlap] of the contract. *)
Variables chunk_size overlap : nat.

(** The characters held by a list of segments. *)
Definition total (segments : list string) : nat :=
  sum_list_with String.length segments.

Definition join_segments (segments : list string) : string :=
  foldr String.append "" segments.

(** Does [sep] occur in [text]? *)
Fixpoint occurs (sep text : string) : bool :=
  String.prefix sep text ||
  match text with
  | "" => false
  | String _ rest => occurs sep rest
  end.

(** Cut [text] before every occurrence of [sep], scanning from the left;
    an occurrence stays at the head of the segment it opens. [skip] counts
    the characters of the occurrence still to be passed over. *)
Fixpoint split_go (sep text : string) (skip : nat) (cur : string) : list string :=
  match text with
  | "" => [cur]
  | String c rest =>
      match skip with
      | S k => split_go sep rest k (cur +:+ String c "")
      | 0 =>
          if String.prefix sep text
          then cur :: split_go sep rest (String.length sep - 1) (String c "")
          else split_go sep rest 0 (cur +:+ String c "")
      end
  end.

Fixpoint chars (text : string) : list string :=
  match text with
  | "" => []
  | String c rest => String c "" :: chars rest
  end.

(** The non-empty segments of [text] for a separator; the empty separator
    cuts between all characters. *)
Definition split_on (sep text : string) : list string :=
  filter (λ s, s ≠ "")
    (match sep with
     | "" => chars text
     | _ => split_go sep text 0 ""
     end).

(** The tail of the chunk just closed that opens the next one: leading
    segments are dropped until at most [overlap] characters remain and the
    segment coming next still fits. *)
Fixpoint keep_tail (current : list string) (next_len : nat) : list string :=
  match current with
  | [] => []
  | _ :: rest =>
      if decide (overlap < total current
                 ∨ (chunk_size < total current + next_len ∧ 0 < total current))
      then keep_tail rest next_len
      else current
  end.

(** A chunk is closed only when it holds something. *)
Definition emit (current : list string) : list string :=
  match current with
  | [] => []
  | _ :: _ => [join_segments current]
  end.

(** Greedy packing: a segment joins the open chunk [current] while the
    chunk stays within [chunk_size]; otherwise the chunk is closed and the
    next one opens with the kept tail. *)
Fixpoint pack (segments current : list string) : list string :=
  match segments with
  | [] => emit current
  | s :: rest =>
      if decide (chunk_size < total current + String.length s)
      then emit current ++ pack rest (keep_tail current (String.length s) ++ [s])
      else pack rest (current ++ [s])
  end.

(** One separator level: runs of segments shorter than [chunk_size] are
    packed; a segment that alone reaches [chunk_size] is handed to the
    next finer level, or kept as it is when there is none. *)
Fixpoint level (finer : option (string → list string))
    (segments good : list string) : list string :=
  match segments with
  | [] => pack good []
  | s :: rest =>
      if decide (String.length s < chunk_size)
      then level finer rest (good ++ [s])
      else pack good []
           ++ (match finer with
               | None => [s]
               | Some split_finer => split_finer s
               end)
           ++ level finer rest []
  end.

(** The first separator of the list that occurs in the text is the one
    the text is split on; the empty separator always applies and is the
    last level. *)
Fixpoint split_with (separators : list string) (text : string) : list string :=
  match separators with
  | [] => emit (filter (λ s, s ≠ "") [text])
  | sep :: rest =>
      if decide (sep = "") then level None (split_on "" text) []
      else if occurs sep text then
        level (match rest with
               | [] => None
               | _ :: _ => Some (split_with rest)
               end)
              (split_on sep text) []
      else split_with rest text
  end.

(** Paragraph break, line break, space, character. *)
Definition separators : list string := [nl +:+ nl; nl; " "; ""].

(** Modelled from the spec: [ChunkSplitter.split], for which the source
    configures the third-party [RecursiveCharacterTextSplitter] in
    [RAGPipeline.__init__]; the splitter's own code is not among the
    sources. Separators are tried from coarsest to finest, segments are
    packed greedily into chunks of at most [chunk_size] characters, an
    oversize segment is split again with the finer separators, and a new
    chunk opens with up to [overlap] characters of the tail of the one
    before. *)
Definition split (text : string) : list string :=
  split_with separators text.
End ChunkSplitter.
End ChunkSplitter.

(** ** Configuration and the pipeline object *)

(** The values of [config] the pipeline reads. *)
Record Config : Type := {
  CHUNK_SIZE : nat;
  CHUNK_OVERLAP : nat;
  TOP_K_RETRIEVAL : nat
}.

(** The summary of an ingestion the spec speaks of: documents taken in and
    chunks stored. *)
Record IngestSummary : Type := {
  documentsIn : nat;
  chunksStored : nat
}.

(** The defaults of [config.py]. *)
Definition default_config : Config :=
  {| CHUNK_SIZE := 1000; CHUNK_OVERLAP := 200; TOP_K_RETRIEVAL := 5 |}.

(** [RAGPipeline.__init__]: the splitter is built from the configuration. *)
Definition text_splitter (config : Config) : string → list string :=
  ChunkSplitter.split (CHUNK_SIZE config) (CHUNK_OVERLAP config).

(** ** A small deployment, used to run the definitions *)
Module Demo.
(** A stub provider that echoes the turns it receives. *)
Definition echo : BaseLLM unit :=
  {| generate messages x := (Return (join "|" (content <$> messages)), x);
     generate_log messages x := [];
     get_model_info :=
       {| info_provider := "echo"; info_model := "stub";
          info_type := "stub"; info_capabilities := ["chat"] |} |}.

(** An embedding function that always succeeds (dimension 1). *)
Definition embed (text : string) : option (list nat) :=
  Some [String.length text].

(** A search that ranks the stored chunks by ascending id, as an index
    does when all scores tie, and returns the first [TOP_K_RETRIEVAL]. *)
Definition search (store : gmap string (Entry (list nat))) (query : string)
    : outcome (list Document) :=
  Return (take (TOP_K_RETRIEVAL default_config)
            ((λ kv, {| doc_id := kv.1; doc_text := entry_text kv.2;
                       doc_metadata := Some (entry_metadata kv.2) |})
               <$> merge_sort (λ a b : string * Entry (list nat), String.le a.1 b.1)
                     (map_to_list store))).

Definition small_config : Config :=
  {| CHUNK_SIZE := 12; CHUNK_OVERLAP := 4; TOP_K_RETRIEVAL := 5 |}.

(** No provider could be registered, nothing ingested. *)
Definition no_providers : World unit (list nat) :=
  {| llm_manager := {| llms := ∅; active_provider := None |};
     vector_store := ∅; ext := tt; log := []; calls := [] |}.

(** One registered provider, active by default, nothing ingested. *)
Definition one_provider : World unit (list nat) :=
  {| llm_manager := {| llms := {["openai" := echo]};
                       active_provider := Some "openai" |};
     vector_store := ∅; ext := tt; log := []; calls := [] |}.

Definition ai_doc : Document :=
  {| doc_id := "d1";
     doc_text := "Artificial Intelligence is a field of computer science.";
     doc_metadata := None |}.

Definition ml_doc : Document :=
  {| doc_id := "d2";
     doc_text := "Machine Learning is a subset of AI.";
     doc_metadata := None |}.

Definition user_turn (text : string) : Message :=
  {| role := "user"; content := text |}.

Definition assistant_turn (text : string) : Message :=
  {| role := "assistant"; content := text |}.
End Demo.

(** ** Construction of the registry *)

(** The values of [config] the providers read. *)
Record LLMConfig : Type := {
  OPENAI_API_KEY : option string;
  OPENAI_MODEL : string;
  HUGGINGFACE_API_KEY : option string;
  HUGGINGFACE_MODEL : string
}.

(** Python truthiness of an optional string: [None] and [""] are falsy. *)
Definition truthy (value : option string) : bool :=
  match value with
  | Some (String _ _) => true
  | _ => false
  end.

(** [a or b] where [b] is a string. *)
Definition py_or_str (a : option string) (b : string) : string :=
  match a with
  | Some (String c rest) => String c rest
  | _ => b
  end.

(** [Config.validate]: the lines it prints and its result. *)
Definition validate (config : LLMConfig) : list string * bool :=
  if negb (truthy (OPENAI_API_KEY config))
     && negb (truthy (HUGGINGFACE_API_KEY config))
  then (["Warning: No API keys configured. Some features may not work."], false)
  else ([], true).

(** The registry never names an active provider it does not hold. *)
Definition active_registered {Ext} (m : Manager Ext) : Prop :=
  match active_provider m with
  | None => True
  | Some name => is_Some (llms m !! name)
  end.

Section Construction.
Context {Ext Vec : Type}.
Abbreviation W := (World Ext Vec).

Variable config : LLMConfig.

(** [ChatOpenAI(model=..., openai_api_key=...)]: the client, or an
    exception of the library. *)
Variable ChatOpenAI :
  string → string → Ext → outcome (list LangchainMessage → Ext → outcome string * Ext) * Ext.

(** Loading tokenizer, weights and pipeline of a local model and wrapping
    them: the text-generation callable, or an exception. *)
Variable load_pipeline :
  string → Ext → outcome (string → Ext → outcome string * Ext) * Ext.

(** A call that reaches outside the process. *)
Definition external {A} (call : Ext → outcome A * Ext) : Py W A :=
  λ w, let '(r, x') := call (ext w) in
       (r, {| llm_manager := llm_manager w; vector_store := vector_store w;
              ext := x'; log := log w; calls := calls w |}).

(** [OpenAILLM.__init__] *)
Definition OpenAILLM__init__ (model_name api_key : option string) : Py W (BaseLLM Ext) :=
  let model_name := py_or_str model_name (OPENAI_MODEL config) in
  let api_key := py_or api_key (OPENAI_API_KEY config) in
  match api_key with
  | Some (String c rest) =>
      llm ← external (ChatOpenAI model_name (String c rest));
      mret (OpenAILLM model_name llm)
  | _ => raise "OpenAI API key is required"
  end.

(** [HuggingFaceLLM.__init__]: a failure is logged and raised again. *)
Definition HuggingFaceLLM__init__ (model_name api_key : option string) : Py W (BaseLLM Ext) :=
  let model_name := py_or_str model_name (HUGGINGFACE_MODEL config) in
  try_except
    (llm ← external (load_pipeline model_name);
     mret (HuggingFaceLLM model_name llm))
    (λ e, logger (LogError ("Error initializing Hugging Face model: " +:+ e));;
          raise e).

(** [self.llms[name] = llm] *)
Definition register (name : string) (llm : BaseLLM Ext) : Py W unit :=
  m ← get_manager;
  set_manager {| llms := <[name := llm]> (llms m);
                 active_provider := active_provider m |}.

(** [self.active_provider = name] *)
Definition activate (name : string) : Py W unit :=
  m ← get_manager;
  set_manager {| llms := llms m; active_provider := Some name |}.

(** [LLMManager._initialize_llms] *)
Definition _initialize_llms : Py W unit :=
  try_except
    ((if truthy (OPENAI_API_KEY config) then
        llm ← OpenAILLM__init__ None None;
        register "openai" llm;;
        activate "openai";;
        logger (LogInfo "OpenAI LLM initialized successfully")
      else mret tt);;
     (if truthy (HUGGINGFACE_API_KEY config) then
        llm ← HuggingFaceLLM__init__ None None;
        register "huggingface" llm;;
        m ← get_manager;
        (if truthy (active_provider m) then mret tt
         else activate "huggingface");;
        logger (LogInfo "Hugging Face LLM initialized successfully")
      else mret tt);;
     m ← get_manager;
     if decide (size (llms m) = 0)
     then logger (LogWarning "No LLM providers initialized")
     else mret tt)
    (λ e, logger (LogError ("Error initializing LLMs: " +:+ e))).

(** [LLMManager.__init__] *)
Definition LLMManager__init__ : Py W unit :=
  set_manager {| llms := ∅; active_provider := None |};;
  _initialize_llms.
End Construction.

(** The turns [HuggingFaceLLM._format_messages] has a line for. *)
Definition known_role (msg : Message) : Prop :=
  role msg = "system" ∨ role msg = "user" ∨ role msg = "assistant".

Global Instance known_role_dec msg : Decision (known_role msg).
Proof. unfold known_role. apply _. Defined.

(** A string of decimal digits. *)
Fixpoint digits (s : string) : Prop :=
  match s with
  | "" => True
  | String c rest => is_Some (Ascii.is_nat c) ∧ digits rest
  end.

(** ** The HTTP endpoints ([api.py]) *)
Module Api.

(** What an endpoint hands to the framework: a response body, or an
    [HTTPException] with its status code and detail. *)
Inductive http (A : Type) : Type :=
  | Respond (body : A)
  | HTTPException (status_code : nat) (detail : string).
Arguments Respond {A} body.
Arguments HTTPException {A} status_code detail.

(** The request and response models; [provider] of [ChatResponse] is
    [response_provider] here. *)
Record ChatRequest : Type := {
  messages : list Message;
  provider : option string
}.

Record ChatResponse : Type := {
  response : string;
  response_provider : string;
  context_used : bool
}.

Section Api.
Context {Ext Vec : Type}.
Abbreviation W := (World Ext Vec).

Variable search : gmap string (Entry Vec) → string → outcome (list Document).

(** [str(e)] for an [HTTPException], as the framework defines it. *)
Variable str_HTTPException : nat → string → string.

(** [except Exception as e]: the error is logged under the label of the
    endpoint and raised again with status 500. *)
Definition internal_error {A} (label e : string) (w : W) : http A * W :=
  (HTTPException 500 e, logged (LogError (label +:+ e)) w).

(** [chat], the handler of [POST /chat] *)
Definition chat (request : ChatRequest) (w : W) : http ChatResponse * W :=
  match messages request with
  | [] =>
      internal_error "Error in chat endpoint: "
        (str_HTTPException 400 "No messages provided") w
  | _ :: _ =>
      let messages := (λ msg, {| role := role msg; content := content msg |})
                        <$> messages request in
      match RAGPipeline.chat search messages (provider request) w with
      | (Return response, w') =>
          let context_used := bool_decide (0 < length (Api.messages request)) in
          (Respond {| response := response;
                      response_provider :=
                        py_or_str (active_provider (llm_manager w')) "unknown";
                      context_used := context_used |}, w')
      | (Raise e, w') => internal_error "Error in chat endpoint: " e w'
      end
  end.

(** [switch_provider], the handler of [POST /switch_provider/{provider}];
    the body is the dict with keys [message] and [active_provider]. *)
Definition switch_provider (provider : string) (w : W)
    : http (gmap string string) * W :=
  match LLMManager.set_active_provider provider w with
  | (Return true, w') =>
      (Respond (<["message" := "Switched to " +:+ provider +:+ " provider"]>
                  {["active_provider" := provider]}), w')
  | (Return false, w') =>
      internal_error "Error switching provider: "
        (str_HTTPException 400 ("Provider " +:+ provider +:+ " not available")) w'
  | (Raise e, w') => internal_error "Error switching provider: " e w'
  end.
End Api.
End Api.

(** ** A second deployment: two providers *)
Module Demo2.
(** A stub provider that answers with a fixed text. *)
Definition fixed (text : string) : BaseLLM unit :=
  {| generate messages x := (Return text, x);
     generate_log messages x := [];
     get_model_info :=
       {| info_provider := "fixed"; info_model := text;
          info_type := "stub"; info_capabilities := [] |} |}.

Definition two_providers : World unit (list nat) :=
  {| llm_manager := {| llms := <["huggingface" := fixed "local"]>
                                 {["openai" := fixed "hosted"]};
                       active_provider := Some "openai" |};
     vector_store := ∅; ext := tt; log := []; calls := [] |}.

Definition keys_both : LLMConfig :=
  {| OPENAI_API_KEY := Some "sk-test"; OPENAI_MODEL := "gpt-3.5-turbo";
     HUGGINGFACE_API_KEY := Some "hf-test";
     HUGGINGFACE_MODEL := "meta-llama/Llama-2-7b-chat-hf" |}.

Definition keys_none : LLMConfig :=
  {| OPENAI_API_KEY := None; OPENAI_MODEL := "gpt-3.5-turbo";
     HUGGINGFACE_API_KEY := Some "";
     HUGGINGFACE_MODEL := "meta-llama/Llama-2-7b-chat-hf" |}.

(** A client library that always builds an echoing client. *)
Definition client_ok (model key : string) (x : unit)
    : outcome (list LangchainMessage → unit → outcome string * unit) * unit :=
  (Return (λ msgs x, (Return "ok", x)), x).

(** A client library that fails to build. *)
Definition client_fails (model key : string) (x : unit)
    : outcome (list LangchainMessage → unit → outcome string * unit) * unit :=
  (Raise "invalid api key", x).

Definition pipeline_ok (model : string) (x : unit)
    : outcome (string → unit → outcome string * unit) * unit :=
  (Return (λ prompt x, (Return prompt, x)), x).

(** A client whose every call fails. *)
Definition client_down (msgs : list LangchainMessage) (x : unit)
    : outcome string * unit :=
  (Raise "connection refused", x).

Definition blank : World unit (list nat) :=
  {| llm_manager := {| llms := ∅; active_provider := None |};
     vector_store := ∅; ext := tt; log := []; calls := [] |}.

Definition str_http (status_code : nat) (detail : string) : string :=
  pretty status_code +:+ ": " +:+ detail.

(** A local model that cannot be loaded. *)
Definition pipeline_fails (model : string) (x : unit)
    : outcome (string → unit → outcome string * unit) * unit :=
  (Raise "out of memory", x).

(** A local model that answers with its prompt. *)
Definition model_echo (prompt : string) (x : unit) : outcome string * unit :=
  (Return prompt, x).

(** A local model that fails on every prompt. *)
Definition model_down (prompt : string) (x : unit) : outcome string * unit :=
  (Raise "out of memory", x).

(** A provider of some other subclass whose [generate] raises. *)
Definition raising : BaseLLM unit :=
  {| generate messages x := (Raise "rate limit", x);
     generate_log messages x := [];
     get_model_info :=
       {| info_provider := "raising"; info_model := "stub";
          info_type := "stub"; info_capabilities := [] |} |}.

(** A registry with one provider, active. *)
Definition only (llm : BaseLLM unit) : World unit (list nat) :=
  {| llm_manager := {| llms := {["openai" := llm]};
                       active_provider := Some "openai" |};
     vector_store := ∅; ext := tt; log := []; calls := [] |}.

Definition tool_turn (text : string) : Message :=
  {| role := "tool"; content := text |}.

Definition tagged_doc : Document :=
  {| doc_id := "d3"; doc_text := "short text";
     doc_metadata := Some (<["chunk_index" := MStr "mine"]>
                             {["author" := MStr "ada"]}) |}.

(** A search that always finds one chunk. *)
Definition search_one (store : gmap string (Entry (list nat))) (query : string)
    : outcome (list Document) :=
  Return [Demo.ai_doc].

Definition search_fails (store : gmap string (Entry (list nat))) (query : string)
    : outcome (list Document) :=
  Raise "index unavailable".
End Demo2.

(** * Properties *)

(** Unfold the monad of Python calls in the goal. *)
Ltac py_unfold :=
  unfold try_except, raise, get_manager, get_store, set_manager, set_store,
    logger, invoke_provider, mbind, Py_bind, mret, Py_ret.

(** ** The provider registry *)
Section RegistryFacts.
Context {Ext Vec : Type}.
Implicit Types (w : World Ext Vec) (m : Manager Ext).

Lemma py_or_nonempty (name : string) (fallback : option string) :
  name ≠ "" → py_or (Some name) fallback = Some name.
Proof. by destruct name. Qed.

Lemma get_llm_unregistered m (name : string) :
  name ≠ "" → llms m !! name = None → LLMManager.get_llm m (Some name) = None.
Proof.
  intros Hname Hnone. unfold LLMManager.get_llm.
  by rewrite py_or_nonempty.
Qed.

Lemma get_llm_no_providers m provider :
  llms m = ∅ → LLMManager.get_llm m provider = None.
Proof.
  intros Hempty. unfold LLMManager.get_llm.
  destruct (py_or provider (active_provider m)) as [name|]; [|done].
  cbn. by rewrite Hempty, lookup_empty.
Qed.

Lemma generate_response_no_llm messages provider w :
  LLMManager.get_llm (llm_manager w) provider = None →
  LLMManager.generate_response messages provider w
  = (Return "Error: No LLM provider available", w).
Proof.
  intros Hnone. unfold LLMManager.generate_response. py_unfold.
  by rewrite Hnone.
Qed.

Lemma generate_response_llm messages provider w llm :
  LLMManager.get_llm (llm_manager w) provider = Some llm →
  LLMManager.generate_response messages provider w
  = invoke_provider llm messages w.
Proof.
  intros Hllm. unfold LLMManager.generate_response.
  py_unfold. by rewrite Hllm.
Qed.

(** C6: for a provider name that is not registered, [set_active_provider]
    returns [False], its failure signal, and changes nothing: the active
    provider and the rest of the state are as before. *)
Theorem set_active_provider_unregistered (provider : string) w :
  llms (llm_manager w) !! provider = None →
  LLMManager.set_active_provider provider w = (Return false, w).
Proof.
  intros Hnone. unfold LLMManager.set_active_provider. py_unfold.
  rewrite bool_decide_eq_false_2; [done|].
  by apply not_elem_of_dom.
Qed.

(** C10, as amended: a call of [generate_response] that names a non-empty
    provider name outside the registry returns the no-provider text
    whatever the active provider is, and runs no provider. *)
Theorem generate_response_unknown_name messages (name : string) w :
  name ≠ "" →
  llms (llm_manager w) !! name = None →
  LLMManager.generate_response messages (Some name) w
  = (Return "Error: No LLM provider available", w).
Proof.
  intros Hname Hnone. apply generate_response_no_llm.
  by apply get_llm_unregistered.
Qed.
End RegistryFacts.

Lemma set_active_provider_unregistered_witness :
  llms (llm_manager Demo.one_provider) !! "nonexistent" = None
  ∧ LLMManager.set_active_provider "nonexistent" Demo.one_provider
    = (Return false, Demo.one_provider).
Proof.
  split; [reflexivity|].
  apply set_active_provider_unregistered. reflexivity.
Defined.

Lemma generate_response_unknown_name_witness :
  "nonexistent" ≠ ""
  ∧ llms (llm_manager Demo.one_provider) !! "nonexistent" = None
  ∧ LLMManager.generate_response [Demo.user_turn "hi"] (Some "nonexistent")
      Demo.one_provider
    = (Return "Error: No LLM provider available", Demo.one_provider).
Proof.
  split; [discriminate|]. split; [reflexivity|].
  apply generate_response_unknown_name; [discriminate | reflexivity].
Defined.

(** C10, as stated, fails for the empty name: it is not a key of the
    registry, yet [provider or self.active_provider] replaces it by the
    active provider, which is run on the turns. *)
Lemma generate_response_empty_name_falls_back :
  llms (llm_manager Demo.one_provider) !! "" = None
  ∧ active_provider (llm_manager Demo.one_provider) = Some "openai"
  ∧ (LLMManager.generate_response [Demo.user_turn "hi"] (Some "")
       Demo.one_provider).1 = Return "hi"
  ∧ (LLMManager.generate_response [Demo.user_turn "hi"] (Some "")
       Demo.one_provider).1 ≠ Return "Error: No LLM provider available"
  ∧ calls (LLMManager.generate_response [Demo.user_turn "hi"] (Some "")
             Demo.one_provider).2 = [(Demo.echo, [Demo.user_turn "hi"])].
Proof. repeat split; try reflexivity. vm_compute. discriminate. Qed.

(** ** The pipeline: answering *)
Section AnswerFacts.
Context {Ext Vec : Type}.
Variable search : gmap string (Entry Vec) → string → outcome (list Document).
Implicit Types (w : World Ext Vec) (context : option (list Document)).

Abbreviation generate_response := (RAGPipeline.generate_response search).
Abbreviation retrieved := (RAGPipeline.retrieved search).
Abbreviation chat := (RAGPipeline.chat search).

Lemma generate_response_degraded query context provider w :
  retrieved query context w = Return [] →
  generate_response query context provider w
  = (Return RAGPipeline.insufficient_information,
     logged (LogWarning "No relevant context found for query") w).
Proof.
  intros Hret. unfold RAGPipeline.generate_response, RAGPipeline.retrieve.
  destruct context as [given|]; cbn in Hret.
  - injection Hret as ->. reflexivity.
  - py_unfold. by rewrite Hret.
Qed.

Lemma generate_response_search_raises query provider w e :
  retrieved query None w = Raise e →
  generate_response query None provider w
  = (Return ("Error generating response: " +:+ e),
     logged (LogError ("Error generating response: " +:+ e)) w).
Proof.
  intros Hret. unfold RAGPipeline.generate_response, RAGPipeline.retrieve.
  cbn in Hret. py_unfold. by rewrite Hret.
Qed.

(** With some context, the answer is what the registry returns for the
    two prompt turns, an exception of the provider turned into text. *)
Lemma generate_response_grounded query context provider w first others :
  retrieved query context w = Return (first :: others) →
  generate_response query context provider w
  = try_except
      (LLMManager.generate_response
         (RAGPipeline.prompt_messages query (first :: others)) provider)
      (λ e, logger (LogError ("Error generating response: " +:+ e));;
            mret ("Error generating response: " +:+ e)) w.
Proof.
  intros Hret. unfold RAGPipeline.generate_response, RAGPipeline.retrieve.
  destruct context as [given|]; cbn in Hret.
  - injection Hret as ->. py_unfold.
    by destruct (LLMManager.generate_response _ _ _) as [[?|?] ?].
  - py_unfold. rewrite Hret.
    by destruct (LLMManager.generate_response _ _ _) as [[?|?] ?].
Qed.

(** C1: when the retrieval step yields no chunk, [generate_response]
    returns the fixed insufficient-information text, which is not the
    empty string, and no provider is run: the trace of provider calls and
    the outside world are as before. *)
Theorem generate_response_no_chunks query context provider w :
  retrieved query context w = Return [] →
  (generate_response query context provider w).1
  = Return RAGPipeline.insufficient_information
  ∧ (generate_response query context provider w).1 ≠ Return ""
  ∧ calls (generate_response query context provider w).2 = calls w
  ∧ ext (generate_response query context provider w).2 = ext w.
Proof.
  intros Hret. rewrite (generate_response_degraded _ _ _ _ Hret).
  repeat split. discriminate.
Qed.

(** [generate_response] always returns a string. *)
Lemma generate_response_returns query context provider w :
  ∃ answer, (generate_response query context provider w).1 = Return answer.
Proof.
  destruct (retrieved query context w) as [[|first others]|e] eqn:Hret.
  - rewrite (generate_response_degraded _ _ _ _ Hret). eauto.
  - rewrite (generate_response_grounded _ _ _ _ _ _ Hret). py_unfold.
    destruct (LLMManager.generate_response _ _ _) as [[?|?] ?]; eauto.
  - destruct context; [done|].
    rewrite (generate_response_search_raises _ _ _ _ Hret). eauto.
Qed.

(** C3, as amended: with no provider registered, the registry's
    [generate_response] returns the no-provider text for all turns; the
    pipeline's [generate_response] returns a string for every query, never
    an exception, and that string is the no-provider text whenever the
    retrieval step yields at least one chunk. *)
Theorem generate_response_no_providers query context provider messages w :
  llms (llm_manager w) = ∅ →
  LLMManager.generate_response messages provider w
  = (Return "Error: No LLM provider available", w)
  ∧ (∃ answer, (generate_response query context provider w).1 = Return answer)
  ∧ (∀ first others,
       retrieved query context w = Return (first :: others) →
       generate_response query context provider w
       = (Return "Error: No LLM provider available", w)).
Proof.
  intros Hempty.
  assert (Hnone : ∀ msgs, LLMManager.generate_response msgs provider w
            = (Return "Error: No LLM provider available", w)).
  { intros msgs. apply generate_response_no_llm.
    by apply get_llm_no_providers. }
  split; [apply Hnone|]. split; [apply generate_response_returns|].
  intros first others Hret.
  rewrite (generate_response_grounded _ _ _ _ _ _ Hret).
  unfold try_except. by rewrite Hnone.
Qed.

(** C7: for a retrieved context of at least one chunk and a provider that
    resolves, the provider is run exactly once, on two turns: the system
    turn and a user turn holding the query. The system message is the
    fixed header, the entries joined by blank lines, and the fixed footer,
    where entry [k] (from 0) is the text of chunk [k] of the context under
    the label [Context k+1]: the chunks in their returned order, each
    labelled by its rank. *)
Theorem generate_response_prompt query context provider w first others llm :
  retrieved query context w = Return (first :: others) →
  LLMManager.get_llm (llm_manager w) provider = Some llm →
  calls (generate_response query context provider w).2
  = calls w
    ++ [(llm, [ {| role := "system";
                   content := RAGPipeline.system_message (first :: others) |};
                {| role := "user"; content := query |} ])]
  ∧ ∃ entries : list string,
      RAGPipeline.system_message (first :: others)
      = RAGPipeline.system_header +:+ join (nl +:+ nl) entries
        +:+ RAGPipeline.system_footer
      ∧ length entries = length (first :: others)
      ∧ ∀ k chunk, (first :: others) !! k = Some chunk →
          entries !! k
          = Some ("Context " +:+ pretty (S k) +:+ ": " +:+ doc_text chunk).
Proof.
  intros Hret Hllm. split.
  - rewrite (generate_response_grounded _ _ _ _ _ _ Hret).
    unfold try_except.
    rewrite (generate_response_llm _ _ _ _ Hllm).
    unfold invoke_provider, RAGPipeline.prompt_messages.
    by destruct (generate llm _ _) as [[?|?] ?].
  - exists (imap RAGPipeline.context_entry (first :: others)).
    split; [reflexivity|]. split; [by rewrite length_imap|].
    intros k chunk Hk. rewrite list_lookup_imap, Hk. cbn.
    unfold RAGPipeline.context_entry. by rewrite Nat.add_1_r.
Qed.
End AnswerFacts.

(** ** The pipeline: chat *)
Section ChatFacts.
Context {Ext Vec : Type}.
Variable search : gmap string (Entry Vec) → string → outcome (list Document).
Implicit Types (w : World Ext Vec) (messages turns : list Message).

Abbreviation chat := (RAGPipeline.chat search).

(** With a user turn last, [chat] is [generate_response] on its content. *)
Lemma chat_user_last turns last_turn provider w :
  last turns = Some last_turn →
  role last_turn = "user" →
  chat turns provider w
  = RAGPipeline.generate_response search (content last_turn) None provider w.
Proof.
  intros Hlast Hrole. unfold RAGPipeline.chat. rewrite Hlast.
  destruct (decide (role last_turn ≠ "user")) as [Hne|_]; [done|].
  py_unfold.
  destruct (generate_response_returns search (content last_turn) None provider w)
    as [answer Hanswer].
  destruct (RAGPipeline.generate_response _ _ _ _ _) as [[?|?] ?]; [done|].
  discriminate.
Qed.

(** C2, as amended: for turns that are empty or end with a turn whose
    role is not [user], [chat] returns a plain string, [No messages
    provided] or [Last message must be from user], not a structured
    failure; the state is untouched, so nothing is retrieved and no
    provider is run. *)
Theorem chat_rejects_with_text messages provider w :
  (messages = [] ∨ ∃ last_turn, last messages = Some last_turn
                                ∧ role last_turn ≠ "user") →
  chat messages provider w
  = (Return (match messages with
             | [] => "No messages provided"
             | _ :: _ => "Last message must be from user"
             end), w)
  ∧ ¬ structured_failure (chat messages provider w).1.
Proof.
  intros Hbad.
  assert (Heq : chat messages provider w
                = (Return (match messages with
                           | [] => "No messages provided"
                           | _ :: _ => "Last message must be from user"
                           end), w)).
  { destruct Hbad as [->|(last_turn & Hlast & Hrole)]; [done|].
    unfold RAGPipeline.chat. rewrite Hlast.
    destruct (decide (role last_turn ≠ "user")); [|done].
    by destruct messages. }
  split; [done|]. rewrite Heq. by intros [e ?].
Qed.

(** C9: for at least two turns ending with a user turn, [chat] yields
    the same outcome, string and final state, as for the last turn alone:
    the earlier turns are never read. *)
Theorem chat_ignores_history turns last_turn provider w :
  2 ≤ length turns →
  last turns = Some last_turn →
  role last_turn = "user" →
  chat turns provider w = chat [last_turn] provider w.
Proof.
  intros _ Hlast Hrole.
  rewrite (chat_user_last turns last_turn) by done.
  by rewrite (chat_user_last [last_turn] last_turn).
Qed.
End ChatFacts.

(** ** The index *)
Section IndexFacts.
Context {Vec : Type}.
Implicit Types (store : gmap string (Entry Vec))
  (entries : list (string * Entry Vec)).

(** Writing a batch is a left-biased union with the batch read backwards
    (a later entry for an id overwrites an earlier one). *)
Lemma write_entries_union store entries :
  VectorStore.write_entries store entries
  = list_to_map (reverse entries) ∪ store.
Proof.
  unfold VectorStore.write_entries.
  revert store. induction entries as [|[k v] entries IH]; intros store.
  - cbn. by rewrite (left_id_L ∅ (∪)).
  - cbn [foldl]. rewrite IH, reverse_cons, list_to_map_app. cbn.
    rewrite <-(assoc_L (∪)). f_equal.
    rewrite insert_empty. by rewrite <-insert_union_singleton_l.
Qed.

Lemma write_entries_twice store entries :
  VectorStore.write_entries (VectorStore.write_entries store entries) entries
  = VectorStore.write_entries store entries.
Proof.
  rewrite !write_entries_union. rewrite (assoc_L (∪)).
  by rewrite (idemp_L (∪)).
Qed.

Lemma write_entries_dom store entries :
  dom (VectorStore.write_entries store entries)
  = list_to_set entries.*1 ∪ dom store.
Proof.
  rewrite write_entries_union, dom_union_L, dom_list_to_map_L.
  f_equal. apply set_eq. intros k.
  rewrite !elem_of_list_to_set, fmap_reverse. apply elem_of_reverse.
Qed.

Lemma upsert_twice (embed : string → option Vec) chunks store store' :
  VectorStore.upsert embed chunks store = inl store' →
  VectorStore.upsert embed chunks store' = inl store'.
Proof.
  unfold VectorStore.upsert.
  destruct (mapM _ chunks) as [entries|]; [|done].
  intros [= <-]. by rewrite write_entries_twice.
Qed.

Lemma embed_chunks_ids (embed : string → option Vec) chunks entries :
  mapM (VectorStore.embed_chunk embed) chunks = Some entries →
  entries.*1 = doc_id <$> chunks.
Proof.
  intros Hall%mapM_Some.
  induction Hall as [|chunk entry chunks entries Hentry _ IH]; [done|].
  cbn. f_equal; [|done].
  unfold VectorStore.embed_chunk in Hentry.
  destruct (embed (doc_text chunk)); by simplify_eq/=.
Qed.
End IndexFacts.

(** ** The pipeline: ingestion *)
Section IngestFacts.
Context {Ext Vec : Type}.
Variable split_text : string → list string.
Variable embed : string → option Vec.
Implicit Types (w : World Ext Vec) (doc : Document).

Abbreviation process_documents := (RAGPipeline.process_documents split_text embed).
Abbreviation doc_chunks := (RAGPipeline.doc_chunks split_text).

(** What [process_documents] does, by the result of the batch write. *)
Lemma process_documents_stored documents w store' :
  VectorStore.upsert embed (RAGPipeline.processed_chunks split_text documents)
    (vector_store w) = inl store' →
  (process_documents documents w).1 = Return true
  ∧ vector_store (process_documents documents w).2 = store'
  ∧ log (process_documents documents w).2
    = log w ++ [LogInfo ("Processed " +:+ pretty (length documents)
                         +:+ " documents into "
                         +:+ pretty (length (RAGPipeline.processed_chunks
                                               split_text documents))
                         +:+ " chunks")].
Proof.
  intros Hup. unfold RAGPipeline.process_documents, VectorStore.add_documents.
  py_unfold. by rewrite Hup.
Qed.

Lemma process_documents_aborted documents w err :
  VectorStore.upsert embed (RAGPipeline.processed_chunks split_text documents)
    (vector_store w) = inr err →
  process_documents documents w = (Return false, w).
Proof.
  intros Hup. unfold RAGPipeline.process_documents, VectorStore.add_documents.
  py_unfold. by rewrite Hup.
Qed.

(** The ids of the chunks of a document: the prefix and the index. *)
Lemma doc_chunks_ids doc :
  doc_id <$> doc_chunks doc
  = (λ i, doc_id doc +:+ "_chunk_" +:+ pretty i)
      <$> seq 0 (length (split_text (doc_text doc))).
Proof.
  unfold RAGPipeline.doc_chunks.
  generalize (length (split_text (doc_text doc))) at 1 as total.
  intros total. apply list_eq. intros i.
  rewrite !list_lookup_fmap, list_lookup_imap.
  destruct (split_text (doc_text doc) !! i) as [chunk|] eqn:Hi; cbn.
  - rewrite lookup_seq_lt by (by eapply lookup_lt_Some). done.
  - rewrite lookup_seq_ge by (by apply lookup_ge_None). done.
Qed.

(** The chunk ids of one document are pairwise different. *)
Lemma doc_chunks_ids_NoDup doc : NoDup (doc_id <$> doc_chunks doc).
Proof.
  rewrite doc_chunks_ids. apply NoDup_fmap_2; [|apply NoDup_seq].
  intros i j Heq. do 2 apply (inj (String.app _)) in Heq.
  by apply (inj pretty) in Heq.
Qed.

(** C4, as amended: for the empty list of documents [process_documents]
    returns the success flag [True] and no summary; no chunk is built, the
    index is as before, and the counts, 0 documents and 0 chunks, are
    reported in the log record. *)
Theorem process_documents_empty w :
  (process_documents [] w).1 = Return true
  ∧ RAGPipeline.processed_chunks split_text [] = []
  ∧ vector_store (process_documents [] w).2 = vector_store w
  ∧ log (process_documents [] w).2
    = log w ++ [LogInfo "Processed 0 documents into 0 chunks"].
Proof.
  destruct (process_documents_stored [] w (vector_store w)) as (Hr & Hs & Hl);
    [done|].
  by rewrite Hr, Hs, Hl.
Qed.

(** The chunks built for a single document. *)
Lemma processed_chunks_single doc :
  RAGPipeline.processed_chunks split_text [doc] = doc_chunks doc.
Proof. unfold RAGPipeline.processed_chunks. cbn. by rewrite app_nil_r. Qed.

(** C5: the chunks built for a document get, in order, the ids made of the
    id of the document, [_chunk_] and the index 0, 1, ... of the chunk; and
    ingesting the same document a second time leaves the index as the first
    time left it: the same set of chunk ids, the same entries. *)
Theorem process_documents_idempotent doc w :
  doc_id <$> RAGPipeline.processed_chunks split_text [doc]
  = (λ i, doc_id doc +:+ "_chunk_" +:+ pretty i)
      <$> seq 0 (length (split_text (doc_text doc)))
  ∧ dom (vector_store (process_documents [doc]
                         (process_documents [doc] w).2).2)
    = dom (vector_store (process_documents [doc] w).2)
  ∧ vector_store (process_documents [doc] (process_documents [doc] w).2).2
    = vector_store (process_documents [doc] w).2.
Proof.
  split; [rewrite processed_chunks_single; apply doc_chunks_ids|].
  assert (Hsame : vector_store (process_documents [doc]
                                  (process_documents [doc] w).2).2
                  = vector_store (process_documents [doc] w).2);
    [|by rewrite Hsame].
  destruct (VectorStore.upsert embed
              (RAGPipeline.processed_chunks split_text [doc])
              (vector_store w)) as [store'|err] eqn:Hup.
  - destruct (process_documents_stored [doc] w store' Hup) as (_ & Hs & _).
    destruct (process_documents_stored [doc] (process_documents [doc] w).2 store')
      as (_ & Hs' & _).
    { rewrite Hs. by eapply upsert_twice. }
    by rewrite Hs', Hs.
  - rewrite (process_documents_aborted [doc] w err Hup). cbn [snd].
    by rewrite (process_documents_aborted [doc] w err Hup).
Qed.

(** After a successful ingestion of a document into an index, the ids
    in the index are the ones it had and the chunk ids of the document. *)
Lemma process_documents_ids doc w :
  (process_documents [doc] w).1 = Return true →
  dom (vector_store (process_documents [doc] w).2)
  = list_to_set (doc_id <$> doc_chunks doc) ∪ dom (vector_store w).
Proof.
  destruct (VectorStore.upsert embed
              (RAGPipeline.processed_chunks split_text [doc])
              (vector_store w)) as [store'|err] eqn:Hup.
  - destruct (process_documents_stored [doc] w store' Hup) as (_ & Hs & _).
    intros _. rewrite Hs. unfold VectorStore.upsert in Hup.
    destruct (mapM _ _) as [entries|] eqn:Hentries; [|done].
    injection Hup as <-. rewrite write_entries_dom.
    rewrite (embed_chunks_ids _ _ _ Hentries).
    by rewrite processed_chunks_single.
  - by rewrite (process_documents_aborted [doc] w err Hup).
Qed.
End IngestFacts.

(** ** The chunk splitter *)
Section SplitterFacts.
Variables chunk_size overlap : nat.
Implicit Types (segments current good : list string) (text sep : string).

Abbreviation within := (Forall (λ s : string, String.length s ≤ chunk_size)).

Lemma length_app (s1 s2 : string) :
  String.length (s1 +:+ s2) = String.length s1 + String.length s2.
Proof.
  induction s1 as [|c s1 IH]; [done|].
  change (S (String.length (s1 +:+ s2))
          = S (String.length s1 + String.length s2)).
  by rewrite IH.
Qed.

Lemma total_app segments current :
  ChunkSplitter.total (segments ++ current)
  = ChunkSplitter.total segments + ChunkSplitter.total current.
Proof. unfold ChunkSplitter.total. by rewrite sum_list_with_app. Qed.

Lemma total_cons (s : string) segments :
  ChunkSplitter.total (s :: segments)
  = String.length s + ChunkSplitter.total segments.
Proof. reflexivity. Qed.

Lemma length_join_segments segments :
  String.length (ChunkSplitter.join_segments segments)
  = ChunkSplitter.total segments.
Proof.
  unfold ChunkSplitter.join_segments.
  induction segments as [|s segments IH]; [done|].
  cbn [foldr]. by rewrite length_app, IH.
Qed.

(** The kept tail leaves room for the segment that comes next. *)
Lemma keep_tail_fits current (next_len : nat) :
  next_len ≤ chunk_size →
  ChunkSplitter.total (ChunkSplitter.keep_tail chunk_size overlap current next_len)
  + next_len ≤ chunk_size.
Proof.
  intros Hnext. induction current as [|s current IH]; [done|].
  cbn [ChunkSplitter.keep_tail]. case_decide as Hdrop; [done|]. lia.
Qed.

Lemma emit_within current :
  ChunkSplitter.total current ≤ chunk_size → within (ChunkSplitter.emit current).
Proof.
  intros Hfits. destruct current as [|s current]; [by constructor|].
  unfold ChunkSplitter.emit. repeat constructor.
  by rewrite length_join_segments.
Qed.

(** Packing keeps the open chunk, and so every closed one, within the size. *)
Lemma pack_within segments current :
  within segments →
  ChunkSplitter.total current ≤ chunk_size →
  within (ChunkSplitter.pack chunk_size overlap segments current).
Proof.
  intros Hsegments. revert current.
  induction Hsegments as [|s segments Hs _ IH]; intros current Hfits.
  - by apply emit_within.
  - cbn [ChunkSplitter.pack]. case_decide as Hfull.
    + apply Forall_app. split; [by apply emit_within|].
      apply IH. rewrite total_app.
      pose proof (keep_tail_fits current (String.length s) Hs).
      unfold ChunkSplitter.total at 2. cbn. lia.
    + apply IH. rewrite total_app. unfold ChunkSplitter.total at 2. cbn. lia.
Qed.

Lemma pack_fresh_within good :
  within good → within (ChunkSplitter.pack chunk_size overlap good []).
Proof. intros Hgood. apply pack_within; [done|]. cbn. lia. Qed.

Lemma level_within (finer : option (string → list string)) segments good :
  match finer with
  | None => within segments
  | Some split_finer => ∀ s, within (split_finer s)
  end →
  within good →
  within (ChunkSplitter.level chunk_size overlap finer segments good).
Proof.
  intros Hfiner. revert good.
  induction segments as [|s segments IH]; intros good Hgood.
  - cbn [ChunkSplitter.level]. by apply pack_fresh_within.
  - assert (Hrest : match finer with
                    | None => within segments
                    | Some split_finer => ∀ s, within (split_finer s)
                    end).
    { destruct finer; [done|]. by apply Forall_cons_1 in Hfiner as [_ ?]. }
    cbn [ChunkSplitter.level]. case_decide as Hshort.
    + apply IH; [done|].
      apply Forall_app. split; [done|]. repeat constructor. lia.
    + rewrite !Forall_app. split; [by apply pack_fresh_within|]. split.
      * destruct finer; [done|].
        apply Forall_cons_1 in Hfiner as [Hs _]. by repeat constructor.
      * apply IH; [done|by constructor].
Qed.

Lemma chars_within text :
  0 < chunk_size → within (ChunkSplitter.split_on "" text).
Proof.
  intros Hpos. unfold ChunkSplitter.split_on.
  apply Forall_forall. intros s [_ Hs]%list_elem_of_filter.
  induction text as [|c text IH]; cbn in Hs.
  - by apply elem_of_nil in Hs.
  - apply elem_of_cons in Hs as [->|Hs]; [cbn; lia|by apply IH].
Qed.

(** With the character level among the separators every chunk is
    within the size. *)
Lemma split_with_within (separators : list string) text :
  0 < chunk_size →
  "" ∈ separators →
  within (ChunkSplitter.split_with chunk_size overlap separators text).
Proof.
  intros Hpos. revert text.
  induction separators as [|sep rest IH]; intros text Hin.
  - by apply elem_of_nil in Hin.
  - cbn [ChunkSplitter.split_with]. case_decide as Hsep.
    + apply level_within; [|by constructor]. by apply chars_within.
    + apply elem_of_cons in Hin as [?|Hin]; [done|].
      destruct (ChunkSplitter.occurs sep text); [|by apply IH].
      apply level_within; [|by constructor].
      destruct rest; [by apply elem_of_nil in Hin|].
      intros segment. by apply IH.
Qed.

(** *** A text within the size is one chunk *)

Lemma app_empty_r (s : string) : s +:+ "" = s.
Proof.
  induction s as [|c s IH]; [done|].
  change (String c (s +:+ "") = String c s). by rewrite IH.
Qed.

Lemma app_assoc_string (s1 s2 s3 : string) :
  (s1 +:+ s2) +:+ s3 = s1 +:+ (s2 +:+ s3).
Proof.
  induction s1 as [|c s1 IH]; [done|].
  change (String c ((s1 +:+ s2) +:+ s3) = String c (s1 +:+ (s2 +:+ s3))).
  by rewrite IH.
Qed.

Lemma join_segments_app segments current :
  ChunkSplitter.join_segments (segments ++ current)
  = ChunkSplitter.join_segments segments +:+ ChunkSplitter.join_segments current.
Proof.
  unfold ChunkSplitter.join_segments.
  induction segments as [|s segments IH]; [done|].
  cbn [app foldr]. by rewrite IH, app_assoc_string.
Qed.

(** Cutting loses no character. *)
Lemma split_go_join sep text (skip : nat) (cur : string) :
  ChunkSplitter.join_segments (ChunkSplitter.split_go sep text skip cur)
  = cur +:+ text.
Proof.
  revert skip cur. induction text as [|c text IH]; intros skip cur; [done|].
  cbn [ChunkSplitter.split_go]. destruct skip as [|skip].
  - destruct (String.prefix sep (String c text)).
    + change (cur +:+ ChunkSplitter.join_segments
                        (ChunkSplitter.split_go sep text (String.length sep - 1)
                           (String c ""))
              = cur +:+ String c text).
      by rewrite IH.
    + by rewrite IH, app_assoc_string.
  - by rewrite IH, app_assoc_string.
Qed.

Lemma chars_join text :
  ChunkSplitter.join_segments (ChunkSplitter.chars text) = text.
Proof.
  induction text as [|c text IH]; [done|].
  change (String c (ChunkSplitter.join_segments (ChunkSplitter.chars text))
          = String c text).
  by rewrite IH.
Qed.

Lemma filter_nonempty_join segments :
  ChunkSplitter.join_segments (filter (λ s : string, s ≠ "") segments)
  = ChunkSplitter.join_segments segments.
Proof.
  induction segments as [|s segments IH]; [done|].
  rewrite filter_cons. case_decide as Hs.
  - unfold ChunkSplitter.join_segments in *. cbn [foldr]. by rewrite IH.
  - subst s. exact IH.
Qed.

Lemma split_on_join sep text :
  ChunkSplitter.join_segments (ChunkSplitter.split_on sep text) = text.
Proof.
  unfold ChunkSplitter.split_on. rewrite filter_nonempty_join.
  destruct sep; [apply chars_join|apply split_go_join].
Qed.

Lemma split_on_nonempty sep text :
  Forall (λ s : string, s ≠ "") (ChunkSplitter.split_on sep text).
Proof.
  apply Forall_forall. by intros s [Hs _]%list_elem_of_filter.
Qed.

Lemma total_zero_nonempty segments :
  Forall (λ s : string, s ≠ "") segments →
  ChunkSplitter.total segments = 0 → segments = [].
Proof.
  intros Hne Hzero. destruct Hne as [|s segments Hs _]; [done|].
  destruct s; [done|]. cbn in Hzero. lia.
Qed.

(** While everything fits, packing only extends the open chunk. *)
Lemma pack_all_fit segments current :
  ChunkSplitter.total current + ChunkSplitter.total segments ≤ chunk_size →
  ChunkSplitter.pack chunk_size overlap segments current
  = ChunkSplitter.emit (current ++ segments).
Proof.
  revert current. induction segments as [|s segments IH]; intros current Hfit.
  - by rewrite app_nil_r.
  - cbn [ChunkSplitter.pack]. rewrite total_cons in Hfit.
    case_decide as Hfull; [lia|].
    rewrite IH, <-(assoc_L (++)); [done|].
    rewrite total_app, total_cons. cbn. lia.
Qed.

Lemma level_all_fit (finer : option (string → list string)) segments good :
  Forall (λ s : string, s ≠ "") (good ++ segments) →
  good ++ segments ≠ [] →
  ChunkSplitter.total good + ChunkSplitter.total segments ≤ chunk_size →
  (∀ split_finer s, finer = Some split_finer →
     s ≠ "" → String.length s ≤ chunk_size → split_finer s = [s]) →
  ChunkSplitter.level chunk_size overlap finer segments good
  = [ChunkSplitter.join_segments (good ++ segments)].
Proof.
  intros Hne Hsome Hfit Hfiner. revert good Hne Hsome Hfit.
  induction segments as [|s segments IH]; intros good Hne Hsome Hfit.
  - cbn [ChunkSplitter.level]. rewrite pack_all_fit by (cbn; lia).
    rewrite app_nil_r in *. cbn [app]. by destruct good.
  - cbn [ChunkSplitter.level]. rewrite total_cons in Hfit.
    case_decide as Hshort.
    + rewrite IH.
      * by rewrite <-(assoc_L (++)).
      * by rewrite <-(assoc_L (++)).
      * by destruct good.
      * rewrite total_app, total_cons. cbn. lia.
    + apply Forall_app in Hne as [Hgood Hrest].
      apply Forall_cons_1 in Hrest as [Hs Hrest].
      assert (good = []) as -> by (apply total_zero_nonempty; [done|lia]).
      assert (segments = []) as -> by (apply total_zero_nonempty; [done|lia]).
      cbn. rewrite app_empty_r.
      destruct finer as [split_finer|]; [|done].
      rewrite (Hfiner split_finer s); [done..|lia].
Qed.

Lemma split_with_short (separators : list string) text :
  "" ∈ separators →
  text ≠ "" →
  String.length text ≤ chunk_size →
  ChunkSplitter.split_with chunk_size overlap separators text = [text].
Proof.
  intros Hin Htext Hshort. revert text Hin Htext Hshort.
  induction separators as [|sep rest IH]; intros text Hin Htext Hshort.
  - by apply elem_of_nil in Hin.
  - assert (Hlevel : ∀ finer,
              (∀ split_finer s, finer = Some split_finer →
                 s ≠ "" → String.length s ≤ chunk_size → split_finer s = [s]) →
              ChunkSplitter.level chunk_size overlap finer
                (ChunkSplitter.split_on sep text) [] = [text]).
    { intros finer Hfiner.
      rewrite (level_all_fit finer (ChunkSplitter.split_on sep text) []).
      - cbn [app]. by rewrite split_on_join.
      - cbn [app]. apply split_on_nonempty.
      - cbn [app]. intros Hnil. pose proof (split_on_join sep text) as Hjoin.
        rewrite Hnil in Hjoin. by subst.
      - change (ChunkSplitter.total []) with 0.
        rewrite <-length_join_segments, split_on_join. lia.
      - exact Hfiner. }
    cbn [ChunkSplitter.split_with]. case_decide as Hsep.
    + subst sep. by apply Hlevel.
    + apply elem_of_cons in Hin as [?|Hin]; [done|].
      destruct (ChunkSplitter.occurs sep text); [|by apply IH].
      apply Hlevel. intros split_finer s Hsplit Hs Hlen.
      destruct rest; [done|]. injection Hsplit as <-. by apply IH.
Qed.

(** A non-empty text of at most [chunk_size] characters is its only chunk. *)
Lemma split_short text :
  text ≠ "" →
  String.length text ≤ chunk_size →
  ChunkSplitter.split chunk_size overlap text = [text].
Proof.
  intros. apply split_with_short; [|done..].
  unfold ChunkSplitter.separators. set_solver.
Qed.

(** C8: for every text and parameters with [chunk_size > 0] and
    [overlap < chunk_size], no chunk of [split] is longer than
    [chunk_size] characters. *)
Theorem split_size_bound text :
  0 < chunk_size →
  overlap < chunk_size →
  Forall (λ chunk : string, String.length chunk ≤ chunk_size)
    (ChunkSplitter.split chunk_size overlap text).
Proof.
  intros Hpos _. apply split_with_within; [done|].
  unfold ChunkSplitter.separators. set_solver.
Qed.
End SplitterFacts.

(** ** The properties at work on the small deployment *)

Lemma generate_response_no_chunks_witness :
  RAGPipeline.retrieved Demo.search "anything" None Demo.one_provider = Return []
  ∧ (RAGPipeline.generate_response Demo.search "anything" None None
       Demo.one_provider).1
    = Return RAGPipeline.insufficient_information
  ∧ calls (RAGPipeline.generate_response Demo.search "anything" None None
             Demo.one_provider).2 = [].
Proof.
  split; [reflexivity|].
  destruct (generate_response_no_chunks Demo.search "anything" None None
              Demo.one_provider) as (Hanswer & _ & Hcalls & _);
    [reflexivity|].
  split; [exact Hanswer | exact Hcalls].
Defined.

(** C2, as stated, fails: a turn list ending with an assistant turn, and
    the empty list, make [chat] return an ordinary string; nothing is
    raised, so the caller gets no structured failure. *)
Lemma chat_rejection_is_plain_string :
  (RAGPipeline.chat Demo.search [Demo.assistant_turn "hi"] None
     Demo.one_provider).1
  = Return "Last message must be from user"
  ∧ ¬ structured_failure
        (RAGPipeline.chat Demo.search [Demo.assistant_turn "hi"] None
           Demo.one_provider).1
  ∧ (RAGPipeline.chat Demo.search [] None Demo.one_provider).1
    = Return "No messages provided"
  ∧ ¬ structured_failure
        (RAGPipeline.chat Demo.search [] None Demo.one_provider).1.
Proof.
  repeat split; try reflexivity; by intros [e ?].
Qed.

Lemma chat_rejects_with_text_witness :
  ([Demo.assistant_turn "hi"] = []
   ∨ ∃ last_turn, last [Demo.assistant_turn "hi"] = Some last_turn
                  ∧ role last_turn ≠ "user")
  ∧ RAGPipeline.chat Demo.search [Demo.assistant_turn "hi"] None
      Demo.one_provider
    = (Return "Last message must be from user", Demo.one_provider).
Proof.
  assert (Hbad : [Demo.assistant_turn "hi"] = []
                 ∨ ∃ last_turn, last [Demo.assistant_turn "hi"] = Some last_turn
                                ∧ role last_turn ≠ "user").
  { right. exists (Demo.assistant_turn "hi"). split; [reflexivity|].
    cbn. discriminate. }
  split; [exact Hbad|].
  exact (proj1 (chat_rejects_with_text Demo.search _ None Demo.one_provider Hbad)).
Defined.

(** C3, as stated, fails: with no provider registered and nothing in the
    index, the answer to a query is the insufficient-information text, not
    the no-provider text; the empty context is handled before any provider
    is looked up. *)
Lemma no_providers_empty_index_degrades :
  llms (llm_manager Demo.no_providers) = ∅
  ∧ (RAGPipeline.generate_response Demo.search "anything" None None
       Demo.no_providers).1
    = Return RAGPipeline.insufficient_information
  ∧ (RAGPipeline.generate_response Demo.search "anything" None None
       Demo.no_providers).1
    ≠ Return "Error: No LLM provider available".
Proof. repeat split. vm_compute. discriminate. Qed.

(** C4, as stated, fails: [process_documents] returns the success flag of
    the index and no summary. For the empty batch it returns the very value
    it returns for a batch of one document stored as one chunk, so the
    value returned cannot be, or be read as, the counts of the batch. *)
Lemma process_documents_returns_flag_not_summary :
  (RAGPipeline.process_documents (text_splitter default_config) Demo.embed
     [] Demo.one_provider).1 = Return true
  ∧ (RAGPipeline.process_documents (text_splitter default_config) Demo.embed
       [Demo.ai_doc] Demo.one_provider).1 = Return true
  ∧ length (RAGPipeline.processed_chunks (text_splitter default_config)
              [Demo.ai_doc]) = 1
  ∧ ¬ ∃ summary : outcome bool → IngestSummary,
        summary (RAGPipeline.process_documents (text_splitter default_config)
                   Demo.embed [] Demo.one_provider).1
        = {| documentsIn := 0; chunksStored := 0 |}
        ∧ summary (RAGPipeline.process_documents
                     (text_splitter default_config) Demo.embed [Demo.ai_doc]
                     Demo.one_provider).1
          = {| documentsIn := 1; chunksStored := 1 |}.
Proof.
  assert (Hempty : (RAGPipeline.process_documents (text_splitter default_config)
                      Demo.embed [] Demo.one_provider).1 = Return true)
    by reflexivity.
  assert (Hone : (RAGPipeline.process_documents (text_splitter default_config)
                    Demo.embed [Demo.ai_doc] Demo.one_provider).1 = Return true)
    by reflexivity.
  split; [exact Hempty|]. split; [exact Hone|]. split; [reflexivity|].
  intros (summary & Hzero & Hcounts).
  rewrite Hempty in Hzero. rewrite Hone in Hcounts.
  rewrite Hzero in Hcounts. discriminate.
Qed.

Lemma generate_response_no_providers_witness :
  llms (llm_manager Demo.no_providers) = ∅
  ∧ LLMManager.generate_response [Demo.user_turn "anything"] None
      Demo.no_providers
    = (Return "Error: No LLM provider available", Demo.no_providers)
  ∧ RAGPipeline.generate_response Demo.search "anything" (Some [Demo.ai_doc])
      None Demo.no_providers
    = (Return "Error: No LLM provider available", Demo.no_providers).
Proof.
  split; [reflexivity|].
  destruct (generate_response_no_providers Demo.search "anything"
              (Some [Demo.ai_doc]) None [Demo.user_turn "anything"]
              Demo.no_providers) as (Hgenerate & _ & Hanswer);
    [reflexivity|].
  split; [exact Hgenerate|].
  exact (Hanswer Demo.ai_doc [] eq_refl).
Defined.

Lemma generate_response_prompt_witness :
  RAGPipeline.retrieved Demo.search "What is AI?"
    (Some [Demo.ai_doc; Demo.ml_doc]) Demo.one_provider
  = Return [Demo.ai_doc; Demo.ml_doc]
  ∧ LLMManager.get_llm (llm_manager Demo.one_provider) None = Some Demo.echo
  ∧ calls (RAGPipeline.generate_response Demo.search "What is AI?"
             (Some [Demo.ai_doc; Demo.ml_doc]) None Demo.one_provider).2
    = [(Demo.echo,
        [ {| role := "system";
             content := RAGPipeline.system_message [Demo.ai_doc; Demo.ml_doc] |};
          {| role := "user"; content := "What is AI?" |} ])].
Proof.
  split; [reflexivity|]. split; [reflexivity|].
  exact (proj1 (generate_response_prompt Demo.search "What is AI?"
                  (Some [Demo.ai_doc; Demo.ml_doc]) None Demo.one_provider
                  Demo.ai_doc [Demo.ml_doc] Demo.echo eq_refl eq_refl)).
Defined.

(** The prompt for two retrieved chunks, as the provider receives it. *)
Example system_message_two_chunks :
  RAGPipeline.system_message [Demo.ai_doc; Demo.ml_doc]
  = "You are a helpful AI assistant. Use the following context to answer the user's question. "
    +:+ nl +:+ "            If the context doesn't contain enough information to answer the question, say so."
    +:+ nl +:+ "            "
    +:+ nl +:+ "            Context:"
    +:+ nl +:+ "            Context 1: Artificial Intelligence is a field of computer science."
    +:+ nl +:+ nl +:+ "Context 2: Machine Learning is a subset of AI."
    +:+ nl +:+ "            "
    +:+ nl +:+ "            Answer the user's question based on the context provided.".
Proof. reflexivity. Qed.

Lemma chat_ignores_history_witness :
  2 ≤ length [Demo.user_turn "first"; Demo.assistant_turn "reply";
              Demo.user_turn "second"]
  ∧ last [Demo.user_turn "first"; Demo.assistant_turn "reply";
          Demo.user_turn "second"] = Some (Demo.user_turn "second")
  ∧ role (Demo.user_turn "second") = "user"
  ∧ RAGPipeline.chat Demo.search
      [Demo.user_turn "first"; Demo.assistant_turn "reply";
       Demo.user_turn "second"] None Demo.one_provider
    = RAGPipeline.chat Demo.search [Demo.user_turn "second"] None
        Demo.one_provider.
Proof.
  split; [cbn; lia|]. split; [reflexivity|]. split; [reflexivity|].
  apply chat_ignores_history; [cbn; lia | reflexivity | reflexivity].
Defined.

Lemma split_size_bound_witness :
  0 < 12 ∧ 4 < 12
  ∧ Forall (λ chunk : string, String.length chunk ≤ 12)
      (ChunkSplitter.split 12 4 "hello world foo bar baz qux").
Proof.
  split; [lia|]. split; [lia|]. apply split_size_bound; lia.
Defined.

(** The splitter on small inputs: a text within the size is one chunk, the
    empty text gives no chunk, consecutive chunks share a tail. *)
Example split_short_text :
  ChunkSplitter.split 12 4 "hello" = ["hello"].
Proof. reflexivity. Qed.

Lemma split_empty_text (chunk_size overlap : nat) :
  ChunkSplitter.split chunk_size overlap "" = [].
Proof. reflexivity. Qed.

Example split_words :
  ChunkSplitter.split 12 4 "hello world foo bar baz qux"
  = ["hello world"; " foo bar baz"; " baz qux"].
Proof. reflexivity. Qed.

Example split_characters :
  ChunkSplitter.split 5 2 "abcdefghijklmnop"
  = ["abcde"; "defgh"; "ghijk"; "jklmn"; "mnop"].
Proof. reflexivity. Qed.

(** The splitter of the pipeline object keeps to the configured size. *)
Lemma text_splitter_within (config : Config) (text : string) :
  0 < CHUNK_SIZE config →
  Forall (λ chunk : string, String.length chunk ≤ CHUNK_SIZE config)
    (text_splitter config text).
Proof.
  intros Hpos. apply split_with_within; [done|].
  unfold ChunkSplitter.separators. set_solver.
Qed.

(** With chunks of 12 characters the document is cut into six chunks,
    numbered from 0. *)
Example ingest_small_chunks :
  doc_id <$> RAGPipeline.processed_chunks (text_splitter Demo.small_config)
               [Demo.ai_doc]
  = ["d1_chunk_0"; "d1_chunk_1"; "d1_chunk_2"; "d1_chunk_3"; "d1_chunk_4";
     "d1_chunk_5"].
Proof. reflexivity. Qed.

(** Scenario 1 of the spec: one short document, one chunk stored. *)
Example ingest_one_document :
  (RAGPipeline.process_documents (text_splitter default_config) Demo.embed
     [Demo.ai_doc] Demo.one_provider).1 = Return true
  ∧ dom (vector_store
           (RAGPipeline.process_documents (text_splitter default_config)
              Demo.embed [Demo.ai_doc] Demo.one_provider).2)
    = {["d1_chunk_0"]}.
Proof. split; [reflexivity|]. by vm_compute. Qed.

(** Ingesting the document again adds no id. *)
Example ingest_document_twice :
  dom (vector_store
         (RAGPipeline.process_documents (text_splitter default_config)
            Demo.embed [Demo.ai_doc]
            (RAGPipeline.process_documents (text_splitter default_config)
               Demo.embed [Demo.ai_doc] Demo.one_provider).2).2)
  = {["d1_chunk_0"]}.
Proof. by vm_compute. Qed.

(** * Further properties of the code *)

(** ** The registry: switching, listing, construction *)
Section RegistryMore.
Context {Ext Vec : Type}.
Implicit Types (w : World Ext Vec) (m : Manager Ext).

Lemma failed_switch_changes_nothing (provider : string) w :
  llms (llm_manager w) !! provider = None →
  (LLMManager.set_active_provider provider w).2 = w.
Proof.
  intros Hnone. unfold LLMManager.set_active_provider. py_unfold.
  rewrite bool_decide_eq_false_2; [done|].
  by apply not_elem_of_dom.
Qed.

(** A non-empty registered name selects its own provider. *)
Lemma get_llm_named m (name : string) :
  name ≠ "" → LLMManager.get_llm m (Some name) = llms m !! name.
Proof.
  intros Hname. unfold LLMManager.get_llm. by rewrite py_or_nonempty.
Qed.

Lemma set_active_provider_success (provider : string) w llm :
  llms (llm_manager w) !! provider = Some llm →
  LLMManager.set_active_provider provider w
  = (Return true,
     logged (LogInfo ("Active provider set to: " +:+ provider))
       (set_manager {| llms := llms (llm_manager w);
                       active_provider := Some provider |} w).2).
Proof.
  intros Hllm. unfold LLMManager.set_active_provider. py_unfold.
  rewrite bool_decide_eq_true_2; [done|].
  apply elem_of_dom. by eexists.
Qed.

(** X1: switching to a registered provider makes it the one that answers
    requests naming no provider: the next [generate_response] runs that
    provider, once, on the turns given, and returns its result; the
    registry keeps the same providers. *)
Theorem switch_then_generate (provider : string) llm messages w :
  llms (llm_manager w) !! provider = Some llm →
  (LLMManager.set_active_provider provider w).1 = Return true
  ∧ llms (llm_manager (LLMManager.set_active_provider provider w).2)
    = llms (llm_manager w)
  ∧ (LLMManager.generate_response messages None
       (LLMManager.set_active_provider provider w).2).1
    = (generate llm messages (ext w)).1
  ∧ calls (LLMManager.generate_response messages None
             (LLMManager.set_active_provider provider w).2).2
    = calls w ++ [(llm, messages)].
Proof.
  intros Hllm. rewrite (set_active_provider_success _ _ _ Hllm). cbn [fst snd].
  split; [done|]. split; [done|].
  rewrite (generate_response_llm messages None _ llm).
  - unfold invoke_provider. cbn.
    by destruct (generate llm messages (ext w)) as [r x'].
  - unfold LLMManager.get_llm. cbn. exact Hllm.
Qed.

(** X2: [set_active_provider] keeps the registry consistent: if the active
    provider was absent or registered before the call, it is so after it,
    whatever name is asked for. *)
Theorem set_active_provider_keeps_registered (provider : string) w :
  active_registered (llm_manager w) →
  active_registered (llm_manager (LLMManager.set_active_provider provider w).2).
Proof.
  intros Hinv.
  destruct (llms (llm_manager w) !! provider) as [llm|] eqn:Hllm.
  - rewrite (set_active_provider_success _ _ _ Hllm).
    unfold active_registered. cbn. by rewrite Hllm.
  - by rewrite (failed_switch_changes_nothing provider w Hllm).
Qed.
End RegistryMore.

Section ListingFacts.
Context {Ext : Type}.
Implicit Types (m : Manager Ext).

(** X3: the providers listed by [get_available_providers] are the registered
    names, each once; and for every listed name other than the empty
    string [get_provider_info] returns the model information of that very
    provider, never the error dict. *)
Theorem available_providers_have_info m (name : string) :
  NoDup (LLMManager.get_available_providers m)
  ∧ (name ∈ LLMManager.get_available_providers m ↔ is_Some (llms m !! name))
  ∧ (name ∈ LLMManager.get_available_providers m →
     name ≠ "" →
     ∃ llm, llms m !! name = Some llm
            ∧ LLMManager.get_provider_info m (Some name)
              = inl (get_model_info llm)).
Proof.
  unfold LLMManager.get_available_providers.
  assert (Hin : name ∈ (map_to_list (llms m)).*1 ↔ is_Some (llms m !! name)).
  { rewrite list_elem_of_fmap. split.
    - intros ([k llm] & -> & Hk%elem_of_map_to_list). by eexists.
    - intros [llm Hllm]. exists (name, llm). split; [done|].
      by apply elem_of_map_to_list. }
  split; [apply NoDup_fst_map_to_list|]. split; [exact Hin|].
  intros [llm Hllm]%Hin Hname. exists llm. split; [done|].
  unfold LLMManager.get_provider_info. by rewrite get_llm_named, Hllm.
Qed.

(** With an empty registry no information is available, whatever is asked. *)
Lemma get_provider_info_no_providers m provider :
  llms m = ∅ → LLMManager.get_provider_info m provider = inr "Provider not available".
Proof.
  intros Hempty. unfold LLMManager.get_provider_info.
  by rewrite get_llm_no_providers.
Qed.
End ListingFacts.

(** Settle the test [if not self.llms] once the registry is known. *)
Ltac size_case :=
  try (let Hsize := fresh "Hsize" in
       case_decide as Hsize;
       [try (apply map_size_empty_inv in Hsize;
             by apply insert_non_empty in Hsize)
       |try (by rewrite map_size_empty in Hsize)]; cbn).

(** Unfold the construction of the registry. *)
Ltac init_unfold :=
  unfold LLMManager__init__, _initialize_llms, OpenAILLM__init__,
    HuggingFaceLLM__init__, register, activate, external;
  py_unfold; cbn.

Section ConstructionFacts.
Context {Ext Vec : Type}.
Variable config : LLMConfig.
Variable ChatOpenAI :
  string → string → Ext
  → outcome (list LangchainMessage → Ext → outcome string * Ext) * Ext.
Variable load_pipeline :
  string → Ext → outcome (string → Ext → outcome string * Ext) * Ext.
Implicit Types (w : World Ext Vec).

Abbreviation init := (LLMManager__init__ config ChatOpenAI load_pipeline).

Lemma truthy_inv (value : option string) :
  truthy value = true → ∃ c rest, value = Some (String c rest).
Proof. destruct value as [[|c rest]|]; naive_solver. Qed.

(** Case analysis on the keys and on what the provider libraries do. *)
Ltac init_cases :=
  init_unfold;
  let Hopenai := fresh "Hopenai" in
  let Hhf := fresh "Hhf" in
  destruct (truthy (OPENAI_API_KEY config)) eqn:Hopenai;
  destruct (truthy (HUGGINGFACE_API_KEY config)) eqn:Hhf; cbn;
  try (apply truthy_inv in Hopenai as (? & ? & ->); cbn;
       destruct (ChatOpenAI _ _ _) as [[?|?] ?]; cbn);
  try (destruct (load_pipeline _ _) as [[?|?] ?]; cbn);
  size_case.

(** X4: constructing the registry never raises, whatever the configuration
    and whatever the provider libraries do; afterwards the active provider
    is registered, and there is none exactly when no provider is registered.
    The index and the trace of provider calls are untouched. *)
Theorem init_establishes_registry w :
  ∃ w', LLMManager__init__ config ChatOpenAI load_pipeline w = (Return tt, w')
        ∧ active_registered (llm_manager w')
        ∧ (active_provider (llm_manager w') = None ↔ llms (llm_manager w') = ∅)
        ∧ vector_store w' = vector_store w
        ∧ calls w' = calls w.
Proof.
  unfold active_registered. init_cases;
    (eexists; split; [reflexivity|]); cbn;
    rewrite ?lookup_insert_eq, ?lookup_insert_ne, ?lookup_insert_eq by done;
    repeat split; try done;
    try (intros Hempty; by apply insert_non_empty in Hempty).
Qed.

(** X5: the hosted provider has priority: whenever construction registers
    [openai] it is the active provider, also when [huggingface] is
    registered after it; [huggingface] is active only when it is registered
    alone. Nothing else is ever registered. *)
Theorem init_prefers_openai w :
  ∃ w', LLMManager__init__ config ChatOpenAI load_pipeline w = (Return tt, w')
        ∧ (is_Some (llms (llm_manager w') !! "openai") →
           active_provider (llm_manager w') = Some "openai")
        ∧ (llms (llm_manager w') !! "openai" = None →
           is_Some (llms (llm_manager w') !! "huggingface") →
           active_provider (llm_manager w') = Some "huggingface")
        ∧ (∀ name : string,
             is_Some (llms (llm_manager w') !! name) →
             name = "openai" ∨ name = "huggingface").
Proof.
  init_cases; (eexists; split; [reflexivity|]); cbn;
    (split; [|split;
       [|intros name [llm Hname];
         repeat (apply lookup_insert_Some in Hname as [[<- _]|[_ Hname]];
                 [by auto|]);
         by rewrite lookup_empty in Hname]]);
    rewrite ?lookup_insert_eq, ?lookup_insert_ne, ?lookup_insert_eq,
      ?lookup_empty by done;
    try done; intros [llm Hllm]; discriminate.
Qed.

(** X7: a failure while loading the local model does not undo the hosted
    provider: [openai] stays registered and active, the failure is logged
    by the constructor and again by the registry, and nothing is raised. *)
Theorem init_huggingface_failure_keeps_openai w (c : Ascii.ascii)
    (rest e : string) client x1 x2 :
  OPENAI_API_KEY config = Some (String c rest) →
  truthy (HUGGINGFACE_API_KEY config) = true →
  ChatOpenAI (OPENAI_MODEL config) (String c rest) (ext w) = (Return client, x1) →
  load_pipeline (HUGGINGFACE_MODEL config) x1 = (Raise e, x2) →
  ∃ w', LLMManager__init__ config ChatOpenAI load_pipeline w = (Return tt, w')
        ∧ llms (llm_manager w')
          = {["openai" := OpenAILLM (OPENAI_MODEL config) client]}
        ∧ active_provider (llm_manager w') = Some "openai"
        ∧ log w'
          = log w
            ++ [LogInfo "OpenAI LLM initialized successfully";
                LogError ("Error initializing Hugging Face model: " +:+ e);
                LogError ("Error initializing LLMs: " +:+ e)].
Proof.
  intros Hkey Hhf Hclient Hload. init_unfold.
  rewrite Hkey, Hhf. cbn. rewrite Hclient. cbn. rewrite Hload. cbn.
  eexists. split; [reflexivity|]. cbn.
  rewrite insert_empty. repeat split. by rewrite <-!(assoc_L (++)).
Qed.

(** X6: a failure while building the hosted provider ends construction: the
    exception is logged and swallowed, the registry stays empty with no
    active provider, and the local model is never loaded, even when its key
    is configured. *)
Theorem init_openai_failure_blocks_all w (c : Ascii.ascii) (rest e : string) x1 :
  OPENAI_API_KEY config = Some (String c rest) →
  ChatOpenAI (OPENAI_MODEL config) (String c rest) (ext w) = (Raise e, x1) →
  ∃ w', LLMManager__init__ config ChatOpenAI load_pipeline w = (Return tt, w')
        ∧ llms (llm_manager w') = ∅
        ∧ active_provider (llm_manager w') = None
        ∧ ext w' = x1
        ∧ log w' = log w ++ [LogError ("Error initializing LLMs: " +:+ e)].
Proof.
  intros Hkey Hclient. init_unfold. rewrite Hkey. cbn. rewrite Hclient.
  eexists. by split.
Qed.

(** X8: when [Config.validate] fails (no usable key), construction touches no
    provider library, registers nothing and logs its warning; every later
    [generate_response] then answers with the no-provider text. *)
Theorem init_without_keys w messages provider :
  (validate config).2 = false →
  ∃ w', LLMManager__init__ config ChatOpenAI load_pipeline w = (Return tt, w')
        ∧ llms (llm_manager w') = ∅
        ∧ ext w' = ext w
        ∧ log w' = log w ++ [LogWarning "No LLM providers initialized"]
        ∧ LLMManager.generate_response messages provider w'
          = (Return "Error: No LLM provider available", w').
Proof.
  unfold validate. intros Hvalid.
  destruct (truthy (OPENAI_API_KEY config)) eqn:Hopenai;
    destruct (truthy (HUGGINGFACE_API_KEY config)) eqn:Hhf; try done.
  exists (logged (LogWarning "No LLM providers initialized")
            (set_manager {| llms := ∅; active_provider := None |} w).2).
  split.
  { init_unfold. by rewrite Hopenai, Hhf. }
  repeat split.
  apply generate_response_no_llm. by apply get_llm_no_providers.
Qed.
End ConstructionFacts.

(** ** The providers behind the pipeline *)
Section ProviderFacts.
Context {Ext Vec : Type}.
Variable search : gmap string (Entry Vec) → string → outcome (list Document).
Implicit Types (w : World Ext Vec) (context : option (list Document)).

(** What a grounded answer is when the provider returns. *)
Lemma generate_response_provider_returns query context provider w first others
    llm reply x' :
  RAGPipeline.retrieved search query context w = Return (first :: others) →
  LLMManager.get_llm (llm_manager w) provider = Some llm →
  generate llm (RAGPipeline.prompt_messages query (first :: others)) (ext w)
  = (Return reply, x') →
  RAGPipeline.generate_response search query context provider w
  = (Return reply,
     (invoke_provider llm
        (RAGPipeline.prompt_messages query (first :: others)) w).2).
Proof.
  intros Hret Hllm Hgen.
  rewrite (generate_response_grounded _ _ _ _ _ _ _ Hret).
  unfold try_except. rewrite (generate_response_llm _ _ _ _ Hllm).
  unfold invoke_provider. by rewrite Hgen.
Qed.

(** The prompt of the local model for the two turns of the pipeline. *)
Lemma format_prompt_messages query (chunks : list Document) :
  _format_messages (RAGPipeline.prompt_messages query chunks)
  = "System: " +:+ RAGPipeline.system_message chunks
    +:+ nl +:+ "User: " +:+ query +:+ nl +:+ "Assistant: ".
Proof.
  unfold _format_messages, RAGPipeline.prompt_messages. cbn [foldl].
  repeat case_decide; try done. by rewrite !app_assoc_string.
Qed.

Lemma openai_generate_prompt (model : string) invoke query
    (chunks : list Document) (x : Ext) :
  generate (OpenAILLM model invoke) (RAGPipeline.prompt_messages query chunks) x
  = match invoke [SystemMessage (RAGPipeline.system_message chunks);
                  HumanMessage query] x with
    | (Return reply, x') => (Return reply, x')
    | (Raise e, x') => (Return ("Error: " +:+ e), x')
    end.
Proof. reflexivity. Qed.

Lemma huggingface_generate_prompt (model : string) invoke query
    (chunks : list Document) (x : Ext) :
  generate (HuggingFaceLLM model invoke)
    (RAGPipeline.prompt_messages query chunks) x
  = match invoke ("System: " +:+ RAGPipeline.system_message chunks
                  +:+ nl +:+ "User: " +:+ query +:+ nl +:+ "Assistant: ") x with
    | (Return reply, x') => (Return reply, x')
    | (Raise e, x') => (Return ("Error: " +:+ e), x')
    end.
Proof.
  unfold HuggingFaceLLM. cbn [generate]. by rewrite format_prompt_messages.
Qed.

Lemma openai_log_prompt (model : string) invoke query
    (chunks : list Document) (x : Ext) :
  generate_log (OpenAILLM model invoke)
    (RAGPipeline.prompt_messages query chunks) x
  = match invoke [SystemMessage (RAGPipeline.system_message chunks);
                  HumanMessage query] x with
    | (Return reply, _) => []
    | (Raise e, _) =>
        [LogError ("Error generating response with OpenAI: " +:+ e)]
    end.
Proof. reflexivity. Qed.

Lemma huggingface_log_prompt (model : string) invoke query
    (chunks : list Document) (x : Ext) :
  generate_log (HuggingFaceLLM model invoke)
    (RAGPipeline.prompt_messages query chunks) x
  = match invoke ("System: " +:+ RAGPipeline.system_message chunks
                  +:+ nl +:+ "User: " +:+ query +:+ nl +:+ "Assistant: ") x with
    | (Return reply, _) => []
    | (Raise e, _) =>
        [LogError ("Error generating response with Hugging Face: " +:+ e)]
    end.
Proof.
  unfold HuggingFaceLLM. cbn [generate_log]. by rewrite format_prompt_messages.
Qed.

(** X9: with the hosted provider answering, a grounded request reaches the
    client as exactly two messages, a system message holding the prompt
    and a human message holding the query; the client's reply is the
    answer. A failure [e] of the client is logged by the provider as
    [Error generating response with OpenAI: e] and comes back as the
    answer [Error: e]. Nothing is raised, and nothing else is logged: the
    pipeline does not see a failure. *)
Theorem answer_through_openai query context provider w first others
    (model : string) invoke :
  RAGPipeline.retrieved search query context w = Return (first :: others) →
  LLMManager.get_llm (llm_manager w) provider = Some (OpenAILLM model invoke) →
  (RAGPipeline.generate_response search query context provider w).1
  = Return
      (match (invoke [SystemMessage (RAGPipeline.system_message (first :: others));
                      HumanMessage query] (ext w)).1 with
       | Return reply => reply
       | Raise e => "Error: " +:+ e
       end)
  ∧ ext (RAGPipeline.generate_response search query context provider w).2
    = (invoke [SystemMessage (RAGPipeline.system_message (first :: others));
               HumanMessage query] (ext w)).2
  ∧ log (RAGPipeline.generate_response search query context provider w).2
    = log w
      ++ match (invoke [SystemMessage
                          (RAGPipeline.system_message (first :: others));
                        HumanMessage query] (ext w)).1 with
         | Return reply => []
         | Raise e =>
             [LogError ("Error generating response with OpenAI: " +:+ e)]
         end.
Proof.
  intros Hret Hllm.
  destruct (invoke [SystemMessage (RAGPipeline.system_message (first :: others));
                    HumanMessage query] (ext w)) as [r x'] eqn:Hinvoke.
  rewrite (generate_response_provider_returns query context provider w first
             others _ (match r with Return reply => reply
                                  | Raise e => "Error: " +:+ e end) x' Hret Hllm).
  - unfold invoke_provider.
    rewrite openai_generate_prompt, openai_log_prompt, Hinvoke.
    by destruct r.
  - rewrite openai_generate_prompt, Hinvoke. by destruct r.
Qed.

(** X10: with the local model answering, a grounded request reaches the model
    as one prompt: the system line, the user line and the open assistant
    line. A failure [e] of the model is logged by the provider as
    [Error generating response with Hugging Face: e] and comes back as the
    answer [Error: e]; nothing else is logged. *)
Theorem answer_through_huggingface query context provider w first others
    (model : string) invoke :
  RAGPipeline.retrieved search query context w = Return (first :: others) →
  LLMManager.get_llm (llm_manager w) provider
  = Some (HuggingFaceLLM model invoke) →
  (RAGPipeline.generate_response search query context provider w).1
  = Return
      (match (invoke ("System: " +:+ RAGPipeline.system_message (first :: others)
                      +:+ nl +:+ "User: " +:+ query +:+ nl +:+ "Assistant: ")
                (ext w)).1 with
       | Return reply => reply
       | Raise e => "Error: " +:+ e
       end)
  ∧ log (RAGPipeline.generate_response search query context provider w).2
    = log w
      ++ match (invoke ("System: "
                        +:+ RAGPipeline.system_message (first :: others)
                        +:+ nl +:+ "User: " +:+ query +:+ nl +:+ "Assistant: ")
                  (ext w)).1 with
         | Return reply => []
         | Raise e =>
             [LogError ("Error generating response with Hugging Face: " +:+ e)]
         end.
Proof.
  intros Hret Hllm.
  destruct (invoke ("System: " +:+ RAGPipeline.system_message (first :: others)
                    +:+ nl +:+ "User: " +:+ query +:+ nl +:+ "Assistant: ")
              (ext w)) as [r x'] eqn:Hinvoke.
  rewrite (generate_response_provider_returns query context provider w first
             others _ (match r with Return reply => reply
                                  | Raise e => "Error: " +:+ e end) x' Hret Hllm).
  - unfold invoke_provider.
    rewrite huggingface_generate_prompt, huggingface_log_prompt, Hinvoke.
    by destruct r.
  - rewrite huggingface_generate_prompt, Hinvoke. by destruct r.
Qed.

(** X11: an exception [e] that escapes a provider is caught by the pipeline:
    the answer is [Error generating response: e], the error is logged once
    by the pipeline, after whatever the provider logged itself, and the
    call is still on the trace. *)
Theorem provider_exception_becomes_text query context provider w first others
    llm (e : string) x' :
  RAGPipeline.retrieved search query context w = Return (first :: others) →
  LLMManager.get_llm (llm_manager w) provider = Some llm →
  generate llm (RAGPipeline.prompt_messages query (first :: others)) (ext w)
  = (Raise e, x') →
  (RAGPipeline.generate_response search query context provider w).1
  = Return ("Error generating response: " +:+ e)
  ∧ log (RAGPipeline.generate_response search query context provider w).2
    = log w
      ++ generate_log llm (RAGPipeline.prompt_messages query (first :: others))
           (ext w)
      ++ [LogError ("Error generating response: " +:+ e)]
  ∧ calls (RAGPipeline.generate_response search query context provider w).2
    = calls w ++ [(llm, RAGPipeline.prompt_messages query (first :: others))].
Proof.
  intros Hret Hllm Hgen.
  rewrite (generate_response_grounded _ _ _ _ _ _ _ Hret).
  unfold try_except. rewrite (generate_response_llm _ _ _ _ Hllm).
  unfold invoke_provider. rewrite Hgen. py_unfold. cbn.
  by rewrite <-(assoc_L (++)).
Qed.
End ProviderFacts.

(** X12: the prompt of the local model keeps only the turns whose role it
    knows: turns with any other role are dropped without a trace, and a
    conversation made of such turns only gives the bare [Assistant: ]. *)
Theorem format_messages_drops_unknown_roles (messages : list Message) :
  _format_messages messages = _format_messages (filter known_role messages)
  ∧ (Forall (λ msg, ¬ known_role msg) messages →
     _format_messages messages = "Assistant: ").
Proof.
  assert (Hfold : ∀ formatted,
    foldl (λ formatted msg,
             if decide (role msg = "system")
             then formatted +:+ "System: " +:+ content msg +:+ nl
             else if decide (role msg = "user")
             then formatted +:+ "User: " +:+ content msg +:+ nl
             else if decide (role msg = "assistant")
             then formatted +:+ "Assistant: " +:+ content msg +:+ nl
             else formatted) formatted messages
    = foldl (λ formatted msg,
             if decide (role msg = "system")
             then formatted +:+ "System: " +:+ content msg +:+ nl
             else if decide (role msg = "user")
             then formatted +:+ "User: " +:+ content msg +:+ nl
             else if decide (role msg = "assistant")
             then formatted +:+ "Assistant: " +:+ content msg +:+ nl
             else formatted) formatted (filter known_role messages)).
  { induction messages as [|msg messages IH]; intros formatted; [done|].
    rewrite filter_cons. destruct (decide (known_role msg)) as [Hknown|Hunknown].
    - cbn [foldl]. apply IH.
    - cbn [foldl]. unfold known_role in Hunknown.
      repeat case_decide; try tauto. apply IH. }
  split.
  - unfold _format_messages. by rewrite Hfold.
  - intros Hall. unfold _format_messages. rewrite Hfold. clear Hfold.
    assert (filter known_role messages = []) as ->; [|done].
    induction Hall as [|msg messages Hmsg _ IH]; [done|].
    by rewrite filter_cons_False.
Qed.

(** ** Decimal numerals and chunk ids *)

Lemma pretty_N_char_digit (x : N) : is_Some (Ascii.is_nat (pretty_N_char x)).
Proof. unfold pretty_N_char. repeat case_match; by eexists. Qed.

Lemma pretty_N_go_digits (x : N) (s : string) :
  digits s → digits (pretty_N_go x s).
Proof.
  revert s. induction (N.lt_wf_0 x) as [x _ IH]; intros s Hs.
  assert (x = 0 ∨ 0 < x)%N as [->|Hpos] by lia.
  - by rewrite pretty_N_go_0.
  - rewrite pretty_N_go_step by done. apply IH.
    + by apply N.div_lt.
    + split; [apply pretty_N_char_digit|done].
Qed.

(** [str(i)] consists of digits. *)
Lemma pretty_nat_digits (i : nat) : digits (pretty i).
Proof.
  unfold pretty, pretty_nat, pretty, pretty_N. case_decide.
  - split; [by eexists|done].
  - by apply pretty_N_go_digits.
Qed.

Lemma digits_app_r (s1 s2 : string) : digits (s1 +:+ s2) → digits s2.
Proof.
  induction s1 as [|c s1 IH]; [done|].
  change (digits (String c (s1 +:+ s2)) → digits s2). intros [_ ?]. auto.
Qed.

(** The last underscore of a string that ends in digits is determined. *)
Lemma last_underscore_unique (p1 p2 d1 d2 : string) :
  digits d1 → digits d2 →
  p1 +:+ "_" +:+ d1 = p2 +:+ "_" +:+ d2 →
  p1 = p2 ∧ d1 = d2.
Proof.
  intros Hd1 Hd2. revert p2.
  induction p1 as [|c1 p1 IH]; intros [|c2 p2] Heq.
  - injection Heq as Heq. split; [done|exact Heq].
  - exfalso. injection Heq as _ Heq.
    change ("" +:+ d1) with d1 in Heq. subst d1.
    apply digits_app_r in Hd1 as [[n Hn] _]. discriminate.
  - exfalso. injection Heq as _ Heq.
    change ("" +:+ d2) with d2 in Heq. subst d2.
    apply digits_app_r in Hd2 as [[n Hn] _]. discriminate.
  - injection Heq as -> Heq. by destruct (IH _ Heq) as [-> ->].
Qed.

Lemma app_inj_same_length (a b u v : string) :
  String.length a = String.length b →
  a +:+ u = b +:+ v → a = b ∧ u = v.
Proof.
  revert b. induction a as [|c a IH]; intros [|c' b] Hlen Heq; try done.
  change (String c (a +:+ u) = String c' (b +:+ v)) in Heq.
  injection Heq as -> Heq. injection Hlen as Hlen.
  by destruct (IH _ Hlen Heq) as [-> ->].
Qed.

(** A chunk id determines the document id and the index it was made of. *)
Lemma chunk_id_inj (id1 id2 : string) (i j : nat) :
  id1 +:+ "_chunk_" +:+ pretty i = id2 +:+ "_chunk_" +:+ pretty j →
  id1 = id2 ∧ i = j.
Proof.
  intros Heq.
  assert (Hsplit : ∀ (id : string) (k : nat),
            id +:+ "_chunk_" +:+ pretty k
            = (id +:+ "_chunk") +:+ "_" +:+ pretty k).
  { intros id k. by rewrite app_assoc_string. }
  rewrite !Hsplit in Heq.
  apply last_underscore_unique in Heq as [Hprefix Hindex];
    [|apply pretty_nat_digits..].
  split; [|by apply (inj pretty)].
  apply app_inj_same_length in Hprefix as [? _]; [done|].
  apply (f_equal String.length) in Hprefix. rewrite !length_app in Hprefix.
  cbn in Hprefix. lia.
Qed.

(** ** The pipeline: the chunks it builds *)
Section ChunkFacts.
Variable split_text : string → list string.
Implicit Types (doc : Document) (documents : list Document).

Abbreviation doc_chunks := (RAGPipeline.doc_chunks split_text).
Abbreviation processed_chunks := (RAGPipeline.processed_chunks split_text).

Lemma doc_chunks_lookup doc (i : nat) :
  doc_chunks doc !! i
  = RAGPipeline.chunk_doc doc (length (split_text (doc_text doc))) i
      <$> split_text (doc_text doc) !! i.
Proof. unfold RAGPipeline.doc_chunks. by rewrite list_lookup_imap. Qed.

Lemma doc_chunks_texts doc :
  doc_text <$> doc_chunks doc = split_text (doc_text doc).
Proof.
  apply list_eq. intros i. rewrite list_lookup_fmap, doc_chunks_lookup.
  by destruct (split_text (doc_text doc) !! i).
Qed.

(** X13: the chunks handed to the index carry, in order, exactly the pieces the
    splitter produced for each document, document after document: no piece
    is dropped, repeated or reordered. *)
Theorem processed_chunks_texts documents :
  doc_text <$> processed_chunks documents
  = documents ≫= (λ doc, split_text (doc_text doc)).
Proof.
  unfold RAGPipeline.processed_chunks.
  induction documents as [|doc documents IH]; [done|].
  cbn. by rewrite fmap_app, doc_chunks_texts, IH.
Qed.

(** X14: the metadata of chunk [i] of a document: the three keys the pipeline
    sets hold the index, the number of chunks of the document and the
    document id, overriding entries of the same name in the metadata of
    the document; every other key is as in the document. *)
Theorem chunk_metadata doc (i : nat) (chunk : Document) :
  doc_chunks doc !! i = Some chunk →
  ∃ metadata,
    doc_metadata chunk = Some metadata
    ∧ metadata !! "chunk_index" = Some (MInt i)
    ∧ metadata !! "total_chunks"
      = Some (MInt (length (split_text (doc_text doc))))
    ∧ metadata !! "source_id" = Some (MStr (doc_id doc))
    ∧ ∀ key : string,
        key ≠ "chunk_index" → key ≠ "total_chunks" → key ≠ "source_id" →
        metadata !! key = default ∅ (doc_metadata doc) !! key.
Proof.
  rewrite doc_chunks_lookup. intros Hchunk.
  destruct (split_text (doc_text doc) !! i) as [text|]; [|done].
  injection Hchunk as <-. eexists. split; [reflexivity|].
  repeat split.
  - do 2 (rewrite lookup_insert_ne by done). by rewrite lookup_insert_eq.
  - rewrite lookup_insert_ne by done. by rewrite lookup_insert_eq.
  - by rewrite lookup_insert_eq.
  - intros key ? ? ?. by rewrite !lookup_insert_ne by done.
Qed.

Lemma fmap_bind_chunks documents :
  doc_id <$> processed_chunks documents
  = documents ≫= (λ doc, doc_id <$> doc_chunks doc).
Proof.
  unfold RAGPipeline.processed_chunks.
  induction documents as [|doc documents IH]; [done|].
  cbn. by rewrite fmap_app, IH.
Qed.

Lemma chunk_id_source doc (id : string) :
  id ∈ doc_id <$> doc_chunks doc →
  ∃ i : nat, id = doc_id doc +:+ "_chunk_" +:+ pretty i.
Proof.
  rewrite (doc_chunks_ids split_text doc).
  intros (i & -> & _)%list_elem_of_fmap. by exists i.
Qed.

(** Documents with different ids never share a chunk id. *)
Lemma chunk_ids_disjoint doc1 doc2 (id : string) :
  id ∈ doc_id <$> doc_chunks doc1 →
  id ∈ doc_id <$> doc_chunks doc2 →
  doc_id doc1 = doc_id doc2.
Proof.
  intros [i ->]%chunk_id_source [j Heq]%chunk_id_source.
  by apply chunk_id_inj in Heq as [? _].
Qed.

(** X15: in a batch of documents with pairwise different ids no two chunks get
    the same id, so no chunk of the batch can overwrite another one in an
    index keyed by chunk id. *)
Theorem processed_chunks_ids_NoDup documents :
  NoDup (doc_id <$> documents) →
  NoDup (doc_id <$> processed_chunks documents).
Proof.
  rewrite fmap_bind_chunks.
  induction documents as [|doc documents IH]; [constructor|].
  intros [Hfresh Hrest]%NoDup_cons. cbn. apply NoDup_app. split; [|split].
  - apply doc_chunks_ids_NoDup.
  - intros id Hid (doc' & Hid' & Hdoc')%list_elem_of_bind.
    apply Hfresh. rewrite (chunk_ids_disjoint doc doc' id Hid Hid').
    by apply list_elem_of_fmap_2.
  - by apply IH.
Qed.
End ChunkFacts.

(** ** The pipeline: what answering leaves alone *)
Section FrameFacts.
Context {Ext Vec : Type}.
Variable search : gmap string (Entry Vec) → string → outcome (list Document).
Implicit Types (w : World Ext Vec) (context : option (list Document))
  (messages : list Message).

Abbreviation generate_response := (RAGPipeline.generate_response search).
Abbreviation chat := (RAGPipeline.chat search).

(** [generate_response] changes neither the index nor the registry and
    runs at most one provider. *)
Lemma generate_response_frame query context provider w :
  vector_store (generate_response query context provider w).2 = vector_store w
  ∧ llm_manager (generate_response query context provider w).2 = llm_manager w
  ∧ (calls (generate_response query context provider w).2 = calls w
     ∨ ∃ llm turns,
         calls (generate_response query context provider w).2
         = calls w ++ [(llm, turns)]).
Proof.
  destruct (RAGPipeline.retrieved search query context w)
    as [[|first others]|e] eqn:Hret.
  - rewrite (generate_response_degraded _ _ _ _ _ Hret). cbn. auto.
  - rewrite (generate_response_grounded _ _ _ _ _ _ _ Hret). unfold try_except.
    destruct (LLMManager.get_llm (llm_manager w) provider) as [llm|] eqn:Hllm.
    + rewrite (generate_response_llm _ _ _ _ Hllm). unfold invoke_provider.
      destruct (generate llm _ _) as [[reply|e] x']; cbn;
        (split; [done|]); (split; [done|]); right; eauto.
    + rewrite (generate_response_no_llm _ _ _ Hllm). auto.
  - destruct context; [done|].
    rewrite (generate_response_search_raises _ _ _ _ _ Hret). cbn. auto.
Qed.

(** The answer of [chat] and the registry after it. *)
Lemma chat_answer_manager messages provider w :
  ∃ answer w',
    chat messages provider w = (Return answer, w')
    ∧ llm_manager w' = llm_manager w.
Proof.
  destruct (last messages) as [last_turn|] eqn:Hlast.
  - destruct (decide (role last_turn = "user")) as [Hrole|Hrole].
    + rewrite (chat_user_last search messages last_turn provider w Hlast Hrole).
      destruct (generate_response_returns search (content last_turn) None
                  provider w) as [answer Hanswer].
      destruct (generate_response_frame (content last_turn) None provider w)
        as (_ & Hmanager & _).
      destruct (generate_response _ _ _ _) as [r w']. cbn in *. subst r. eauto.
    + unfold RAGPipeline.chat, try_except. rewrite Hlast.
      rewrite decide_True by done. eauto.
  - unfold RAGPipeline.chat, try_except. rewrite Hlast. eauto.
Qed.

(** X16: [chat] never raises: for every list of turns, every provider argument
    and every state it returns a string. It leaves the index and the
    registry as they were and runs at most one provider. *)
Theorem chat_returns_and_preserves messages provider w :
  (∃ answer, (chat messages provider w).1 = Return answer)
  ∧ vector_store (chat messages provider w).2 = vector_store w
  ∧ llm_manager (chat messages provider w).2 = llm_manager w
  ∧ (calls (chat messages provider w).2 = calls w
     ∨ ∃ llm turns, calls (chat messages provider w).2 = calls w ++ [(llm, turns)]).
Proof.
  destruct (last messages) as [last_turn|] eqn:Hlast.
  - destruct (decide (role last_turn = "user")) as [Hrole|Hrole].
    + rewrite (chat_user_last search messages last_turn provider w Hlast Hrole).
      split; [apply generate_response_returns|apply generate_response_frame].
    + unfold RAGPipeline.chat, try_except. rewrite Hlast.
      rewrite decide_True by done. cbn [fst snd].
      split; [by eexists|]. auto.
  - unfold RAGPipeline.chat, try_except. rewrite Hlast. cbn [fst snd].
    split; [by eexists|]. auto.
Qed.

(** X17: a failure [e] of the search reaches the user of [chat] as the answer
    [Error generating response: e]: it is logged once, no provider is run,
    and nothing is raised. *)
Theorem chat_search_failure messages last_turn provider w (e : string) :
  last messages = Some last_turn →
  role last_turn = "user" →
  search (vector_store w) (content last_turn) = Raise e →
  chat messages provider w
  = (Return ("Error generating response: " +:+ e),
     logged (LogError ("Error generating response: " +:+ e)) w).
Proof.
  intros Hlast Hrole Hsearch.
  rewrite (chat_user_last search messages last_turn provider w Hlast Hrole).
  by apply generate_response_search_raises.
Qed.
End FrameFacts.

(** ** The HTTP endpoints *)
Section ApiFacts.
Context {Ext Vec : Type}.
Variable search : gmap string (Entry Vec) → string → outcome (list Document).
Variable str_HTTPException : nat → string → string.
Implicit Types (w : World Ext Vec) (request : Api.ChatRequest).


(** Rebuilding the turns as dicts changes nothing. *)
Lemma rebuilt_messages (turns : list Message) :
  (λ msg, {| role := role msg; content := content msg |}) <$> turns = turns.
Proof.
  induction turns as [|[r c] turns IH]; [done|]. cbn. by rewrite IH.
Qed.

Lemma chat_endpoint_nonempty request w first rest :
  Api.messages request = first :: rest →
  Api.chat search str_HTTPException request w
  = match RAGPipeline.chat search (Api.messages request) (Api.provider request) w with
    | (Return response, w') =>
        (Api.Respond
           {| Api.response := response;
              Api.response_provider :=
                py_or_str (active_provider (llm_manager w')) "unknown";
              Api.context_used := true |}, w')
    | (Raise e, w') => Api.internal_error "Error in chat endpoint: " e w'
    end.
Proof.
  intros Hmessages. unfold Api.chat. rewrite rebuilt_messages, Hmessages.
  by destruct (RAGPipeline.chat _ _ _ _) as [[response|e] w'].
Qed.

(** X18: [POST /chat] fails exactly for the empty list of messages, and then
    with status 500, not 400: the exception with status 400 raised inside
    the handler is caught by the handler itself, logged, and raised again
    as an internal error. For every other request a body is returned: it
    holds the answer of the pipeline, reports [context_used] as true
    whatever was retrieved, and names the active provider of the registry
    (or [unknown]). *)
Theorem chat_endpoint_outcome request w :
  (Api.messages request = [] →
   Api.chat search str_HTTPException request w
   = (Api.HTTPException 500 (str_HTTPException 400 "No messages provided"),
      logged (LogError ("Error in chat endpoint: "
                        +:+ str_HTTPException 400 "No messages provided")) w))
  ∧ (Api.messages request ≠ [] →
     ∃ body,
       (Api.chat search str_HTTPException request w).1 = Api.Respond body
       ∧ (RAGPipeline.chat search (Api.messages request)
            (Api.provider request) w).1 = Return (Api.response body)
       ∧ Api.context_used body = true
       ∧ Api.response_provider body
         = py_or_str (active_provider (llm_manager w)) "unknown").
Proof.
  split.
  - intros Hempty. unfold Api.chat. by rewrite Hempty.
  - intros Hsome.
    destruct (Api.messages request) as [|first rest] eqn:Hmessages; [done|].
    rewrite (chat_endpoint_nonempty request w first rest Hmessages), Hmessages.
    destruct (chat_answer_manager search (first :: rest)
                (Api.provider request) w) as (answer & w' & -> & Hmanager).
    cbn. eexists. repeat split. by rewrite Hmanager.
Qed.

(** X19: the provider named in the body of [POST /chat] is the active provider
    of the registry even when the request names another one: a request
    for a registered provider is answered by that provider, and the body
    still reports the active one. *)
Theorem chat_endpoint_reports_active_provider request w last_turn
    (name : string) llm first others :
  last (Api.messages request) = Some last_turn →
  role last_turn = "user" →
  Api.provider request = Some name →
  name ≠ "" →
  llms (llm_manager w) !! name = Some llm →
  search (vector_store w) (content last_turn) = Return (first :: others) →
  ∃ body,
    (Api.chat search str_HTTPException request w).1 = Api.Respond body
    ∧ Api.response_provider body
      = py_or_str (active_provider (llm_manager w)) "unknown"
    ∧ calls (Api.chat search str_HTTPException request w).2
      = calls w
        ++ [(llm, RAGPipeline.prompt_messages (content last_turn)
                    (first :: others))].
Proof.
  intros Hlast Hrole Hprovider Hname Hllm Hsearch.
  destruct (Api.messages request) as [|first_turn rest] eqn:Hmessages; [done|].
  rewrite (chat_endpoint_nonempty request w first_turn rest Hmessages), Hmessages.
  rewrite (chat_user_last search _ last_turn _ w Hlast Hrole), Hprovider.
  rewrite (generate_response_grounded search _ None _ w first others Hsearch).
  unfold try_except.
  rewrite (generate_response_llm _ (Some name) w llm)
    by (by rewrite get_llm_named).
  unfold invoke_provider.
  destruct (generate llm _ _) as [[reply|e] x']; py_unfold; cbn; eauto.
Qed.

(** X20: [POST /switch_provider/{provider}] for a name that is not registered
    fails with status 500, not 400, and leaves the registry as it was; for
    a registered name it returns the body naming it and makes it the
    active provider. *)
Theorem switch_endpoint_outcome (provider : string) w :
  (llms (llm_manager w) !! provider = None →
   (Api.switch_provider str_HTTPException provider w).1
   = Api.HTTPException 500
       (str_HTTPException 400 ("Provider " +:+ provider +:+ " not available"))
   ∧ llm_manager (Api.switch_provider str_HTTPException provider w).2 = llm_manager w)
  ∧ (is_Some (llms (llm_manager w) !! provider) →
     ∃ body,
       (Api.switch_provider str_HTTPException provider w).1 = Api.Respond body
       ∧ body !! "active_provider" = Some provider
       ∧ body !! "message" = Some ("Switched to " +:+ provider +:+ " provider")
       ∧ active_provider (llm_manager (Api.switch_provider str_HTTPException provider w).2)
         = Some provider
       ∧ llms (llm_manager (Api.switch_provider str_HTTPException provider w).2)
         = llms (llm_manager w)).
Proof.
  split.
  - intros Hnone. unfold Api.switch_provider.
    pose proof (failed_switch_changes_nothing provider w Hnone) as Hstate.
    assert (Hresult : (LLMManager.set_active_provider provider w).1 = Return false).
    { unfold LLMManager.set_active_provider. py_unfold.
      rewrite bool_decide_eq_false_2; [done|]. by apply not_elem_of_dom. }
    destruct (LLMManager.set_active_provider provider w) as [r w'].
    cbn in Hstate, Hresult. subst. done.
  - intros [llm Hllm]. unfold Api.switch_provider.
    rewrite (set_active_provider_success provider w llm Hllm).
    eexists. split; [reflexivity|]. cbn.
    rewrite lookup_insert_ne, lookup_singleton_eq, lookup_insert_eq by done.
    done.
Qed.
End ApiFacts.

(** ** The further properties at work *)

Lemma switch_then_generate_witness :
  llms (llm_manager Demo2.two_providers) !! "huggingface"
  = Some (Demo2.fixed "local")
  ∧ (LLMManager.generate_response [Demo.user_turn "hi"] None
       (LLMManager.set_active_provider "huggingface" Demo2.two_providers).2).1
    = Return "local".
Proof.
  split; [reflexivity|].
  exact (proj1 (proj2 (proj2
           (switch_then_generate "huggingface" (Demo2.fixed "local")
              [Demo.user_turn "hi"] Demo2.two_providers eq_refl)))).
Defined.

Lemma set_active_provider_keeps_registered_witness :
  active_registered (llm_manager Demo2.two_providers)
  ∧ active_registered
      (llm_manager
         (LLMManager.set_active_provider "nonexistent" Demo2.two_providers).2).
Proof.
  assert (Hinv : active_registered (llm_manager Demo2.two_providers))
    by (by eexists).
  split; [exact Hinv|].
  exact (set_active_provider_keeps_registered "nonexistent"
           Demo2.two_providers Hinv).
Defined.

Lemma available_providers_have_info_witness :
  "huggingface" ∈ LLMManager.get_available_providers
                    (llm_manager Demo2.two_providers)
  ∧ "huggingface" ≠ ""
  ∧ ∃ llm, llms (llm_manager Demo2.two_providers) !! "huggingface" = Some llm
           ∧ LLMManager.get_provider_info (llm_manager Demo2.two_providers)
               (Some "huggingface") = inl (get_model_info llm).
Proof.
  destruct (available_providers_have_info (llm_manager Demo2.two_providers)
              "huggingface") as (_ & Hin & Hinfo).
  assert (Hlisted : "huggingface" ∈ LLMManager.get_available_providers
                                      (llm_manager Demo2.two_providers)).
  { apply Hin. by eexists. }
  split; [exact Hlisted|]. split; [discriminate|].
  apply Hinfo; [exact Hlisted|discriminate].
Defined.

Lemma init_prefers_openai_witness :
  ∃ w', LLMManager__init__ Demo2.keys_both Demo2.client_ok Demo2.pipeline_ok
          Demo2.blank = (Return tt, w')
        ∧ is_Some (llms (llm_manager w') !! "openai")
        ∧ is_Some (llms (llm_manager w') !! "huggingface")
        ∧ active_provider (llm_manager w') = Some "openai".
Proof.
  destruct (init_prefers_openai Demo2.keys_both Demo2.client_ok
              Demo2.pipeline_ok Demo2.blank) as (w' & Hinit & Hopenai & _).
  exists w'. split; [exact Hinit|].
  assert (Hw' : w' = (LLMManager__init__ Demo2.keys_both Demo2.client_ok
                        Demo2.pipeline_ok Demo2.blank).2) by (by rewrite Hinit).
  assert (Hregistered : is_Some (llms (llm_manager w') !! "openai"))
    by (rewrite Hw'; by eexists).
  split; [exact Hregistered|]. split; [rewrite Hw'; by eexists|].
  exact (Hopenai Hregistered).
Defined.

Lemma init_openai_failure_blocks_all_witness :
  OPENAI_API_KEY Demo2.keys_both = Some "sk-test"
  ∧ Demo2.client_fails (OPENAI_MODEL Demo2.keys_both) "sk-test"
      (ext Demo2.blank) = (Raise "invalid api key", tt)
  ∧ ∃ w', LLMManager__init__ Demo2.keys_both Demo2.client_fails
            Demo2.pipeline_ok Demo2.blank = (Return tt, w')
          ∧ llms (llm_manager w') = ∅.
Proof.
  split; [reflexivity|]. split; [reflexivity|].
  destruct (init_openai_failure_blocks_all Demo2.keys_both Demo2.client_fails
              Demo2.pipeline_ok Demo2.blank _ _ "invalid api key" tt
              eq_refl eq_refl) as (w' & Hinit & Hllms & _).
  exists w'. split; [exact Hinit | exact Hllms].
Defined.

Lemma init_huggingface_failure_keeps_openai_witness :
  OPENAI_API_KEY Demo2.keys_both = Some "sk-test"
  ∧ truthy (HUGGINGFACE_API_KEY Demo2.keys_both) = true
  ∧ ∃ w', LLMManager__init__ Demo2.keys_both Demo2.client_ok
            Demo2.pipeline_fails Demo2.blank = (Return tt, w')
          ∧ active_provider (llm_manager w') = Some "openai".
Proof.
  split; [reflexivity|]. split; [reflexivity|].
  destruct (init_huggingface_failure_keeps_openai Demo2.keys_both
              Demo2.client_ok Demo2.pipeline_fails Demo2.blank _ _
              "out of memory" _ tt tt eq_refl eq_refl eq_refl eq_refl)
    as (w' & Hinit & _ & Hactive & _).
  exists w'. split; [exact Hinit | exact Hactive].
Defined.

Lemma init_without_keys_witness :
  (validate Demo2.keys_none).2 = false
  ∧ ∃ w', LLMManager__init__ Demo2.keys_none Demo2.client_ok Demo2.pipeline_ok
            Demo2.blank = (Return tt, w')
          ∧ LLMManager.generate_response [Demo.user_turn "hi"] (Some "openai") w'
            = (Return "Error: No LLM provider available", w').
Proof.
  split; [reflexivity|].
  destruct (init_without_keys Demo2.keys_none Demo2.client_ok Demo2.pipeline_ok
              Demo2.blank [Demo.user_turn "hi"] (Some "openai") eq_refl)
    as (w' & Hinit & _ & _ & _ & Hgenerate).
  exists w'. split; [exact Hinit | exact Hgenerate].
Defined.

Lemma answer_through_openai_witness :
  RAGPipeline.retrieved Demo2.search_one "What is AI?" None
    (Demo2.only (OpenAILLM "gpt-3.5-turbo" Demo2.client_down))
  = Return [Demo.ai_doc]
  ∧ LLMManager.get_llm
      (llm_manager (Demo2.only (OpenAILLM "gpt-3.5-turbo" Demo2.client_down)))
      None
    = Some (OpenAILLM "gpt-3.5-turbo" Demo2.client_down)
  ∧ (RAGPipeline.generate_response Demo2.search_one "What is AI?" None None
       (Demo2.only (OpenAILLM "gpt-3.5-turbo" Demo2.client_down))).1
    = Return "Error: connection refused"
  ∧ log (RAGPipeline.generate_response Demo2.search_one "What is AI?" None None
           (Demo2.only (OpenAILLM "gpt-3.5-turbo" Demo2.client_down))).2
    = [LogError "Error generating response with OpenAI: connection refused"].
Proof.
  split; [reflexivity|]. split; [reflexivity|].
  destruct (answer_through_openai Demo2.search_one "What is AI?" None None
              (Demo2.only (OpenAILLM "gpt-3.5-turbo" Demo2.client_down))
              Demo.ai_doc [] "gpt-3.5-turbo" Demo2.client_down
              eq_refl eq_refl) as (Hanswer & _ & Hlog).
  split; [exact Hanswer | exact Hlog].
Defined.

(** A local model that fails on every prompt: the failure is logged by
    the provider and answered as text. *)
Example answer_through_failing_model :
  (RAGPipeline.generate_response Demo2.search_one "What is AI?" None None
     (Demo2.only (HuggingFaceLLM "llama" Demo2.model_down))).1
  = Return "Error: out of memory"
  ∧ log (RAGPipeline.generate_response Demo2.search_one "What is AI?" None None
           (Demo2.only (HuggingFaceLLM "llama" Demo2.model_down))).2
    = [LogError "Error generating response with Hugging Face: out of memory"].
Proof. split; reflexivity. Qed.

Lemma answer_through_huggingface_witness :
  RAGPipeline.retrieved Demo2.search_one "What is AI?" None
    (Demo2.only (HuggingFaceLLM "llama" Demo2.model_echo))
  = Return [Demo.ai_doc]
  ∧ LLMManager.get_llm
      (llm_manager (Demo2.only (HuggingFaceLLM "llama" Demo2.model_echo))) None
    = Some (HuggingFaceLLM "llama" Demo2.model_echo)
  ∧ (RAGPipeline.generate_response Demo2.search_one "What is AI?" None None
       (Demo2.only (HuggingFaceLLM "llama" Demo2.model_echo))).1
    = Return ("System: " +:+ RAGPipeline.system_message [Demo.ai_doc]
              +:+ nl +:+ "User: What is AI?" +:+ nl +:+ "Assistant: ").
Proof.
  split; [reflexivity|]. split; [reflexivity|].
  exact (proj1 (answer_through_huggingface Demo2.search_one "What is AI?"
                  None None
                  (Demo2.only (HuggingFaceLLM "llama" Demo2.model_echo))
                  Demo.ai_doc [] "llama" Demo2.model_echo eq_refl eq_refl)).
Defined.

Lemma provider_exception_becomes_text_witness :
  RAGPipeline.retrieved Demo2.search_one "What is AI?" None
    (Demo2.only Demo2.raising) = Return [Demo.ai_doc]
  ∧ LLMManager.get_llm (llm_manager (Demo2.only Demo2.raising)) None
    = Some Demo2.raising
  ∧ generate Demo2.raising
      (RAGPipeline.prompt_messages "What is AI?" [Demo.ai_doc])
      (ext (Demo2.only Demo2.raising)) = (Raise "rate limit", tt)
  ∧ (RAGPipeline.generate_response Demo2.search_one "What is AI?" None None
       (Demo2.only Demo2.raising)).1
    = Return "Error generating response: rate limit".
Proof.
  split; [reflexivity|]. split; [reflexivity|]. split; [reflexivity|].
  exact (proj1 (provider_exception_becomes_text Demo2.search_one "What is AI?"
                  None None (Demo2.only Demo2.raising) Demo.ai_doc []
                  Demo2.raising "rate limit" tt eq_refl eq_refl eq_refl)).
Defined.

Lemma format_messages_drops_unknown_roles_witness :
  Forall (λ msg, ¬ known_role msg) [Demo2.tool_turn "42"]
  ∧ _format_messages [Demo2.tool_turn "42"] = "Assistant: ".
Proof.
  assert (Hall : Forall (λ msg, ¬ known_role msg) [Demo2.tool_turn "42"]).
  { repeat constructor. intros [H|[H|H]]; discriminate. }
  split; [exact Hall|].
  exact (proj2 (format_messages_drops_unknown_roles [Demo2.tool_turn "42"]) Hall).
Defined.

Lemma chunk_metadata_witness :
  RAGPipeline.doc_chunks (text_splitter default_config) Demo2.tagged_doc !! 0
  = Some (RAGPipeline.chunk_doc Demo2.tagged_doc 1 0 "short text")
  ∧ ∃ metadata,
      doc_metadata (RAGPipeline.chunk_doc Demo2.tagged_doc 1 0 "short text")
      = Some metadata
      ∧ metadata !! "chunk_index" = Some (MInt 0)
      ∧ metadata !! "author" = Some (MStr "ada").
Proof.
  split; [reflexivity|].
  destruct (chunk_metadata (text_splitter default_config) Demo2.tagged_doc 0
              (RAGPipeline.chunk_doc Demo2.tagged_doc 1 0 "short text") eq_refl)
    as (metadata & Hmeta & Hindex & _ & _ & Hother).
  exists metadata. split; [exact Hmeta|]. split; [exact Hindex|].
  rewrite Hother; [reflexivity|discriminate..].
Defined.

Lemma processed_chunks_ids_NoDup_witness :
  NoDup (doc_id <$> [Demo.ai_doc; Demo.ml_doc])
  ∧ NoDup (doc_id <$> RAGPipeline.processed_chunks
                        (text_splitter Demo.small_config)
                        [Demo.ai_doc; Demo.ml_doc]).
Proof.
  assert (Hids : NoDup (doc_id <$> [Demo.ai_doc; Demo.ml_doc])).
  { apply (bool_decide_unpack _). vm_compute. exact I. }
  split; [exact Hids|].
  exact (processed_chunks_ids_NoDup (text_splitter Demo.small_config)
           [Demo.ai_doc; Demo.ml_doc] Hids).
Defined.

Lemma chat_search_failure_witness :
  last [Demo.user_turn "What is AI?"] = Some (Demo.user_turn "What is AI?")
  ∧ role (Demo.user_turn "What is AI?") = "user"
  ∧ Demo2.search_fails (vector_store Demo.one_provider)
      (content (Demo.user_turn "What is AI?")) = Raise "index unavailable"
  ∧ (RAGPipeline.chat Demo2.search_fails [Demo.user_turn "What is AI?"] None
       Demo.one_provider).1
    = Return "Error generating response: index unavailable".
Proof.
  split; [reflexivity|]. split; [reflexivity|]. split; [reflexivity|].
  exact (f_equal fst
           (chat_search_failure Demo2.search_fails [Demo.user_turn "What is AI?"]
              (Demo.user_turn "What is AI?") None Demo.one_provider
              "index unavailable" eq_refl eq_refl eq_refl)).
Defined.

Lemma chat_endpoint_outcome_witness :
  Api.messages {| Api.messages := []; Api.provider := None |} = []
  ∧ (Api.chat Demo.search Demo2.str_http
       {| Api.messages := []; Api.provider := None |} Demo.one_provider).1
    = Api.HTTPException 500 "400: No messages provided".
Proof.
  split; [reflexivity|].
  exact (f_equal fst
           (proj1 (chat_endpoint_outcome Demo.search Demo2.str_http
                     {| Api.messages := []; Api.provider := None |}
                     Demo.one_provider) eq_refl)).
Defined.

Lemma chat_endpoint_reports_active_provider_witness :
  last (Api.messages {| Api.messages := [Demo.user_turn "What is AI?"];
                        Api.provider := Some "huggingface" |})
  = Some (Demo.user_turn "What is AI?")
  ∧ llms (llm_manager Demo2.two_providers) !! "huggingface"
    = Some (Demo2.fixed "local")
  ∧ active_provider (llm_manager Demo2.two_providers) = Some "openai"
  ∧ ∃ body,
      (Api.chat Demo2.search_one Demo2.str_http
         {| Api.messages := [Demo.user_turn "What is AI?"];
            Api.provider := Some "huggingface" |} Demo2.two_providers).1
      = Api.Respond body
      ∧ Api.response_provider body = "openai"
      ∧ calls (Api.chat Demo2.search_one Demo2.str_http
                 {| Api.messages := [Demo.user_turn "What is AI?"];
                    Api.provider := Some "huggingface" |}
                 Demo2.two_providers).2
        = [(Demo2.fixed "local",
            RAGPipeline.prompt_messages "What is AI?" [Demo.ai_doc])].
Proof.
  split; [reflexivity|]. split; [reflexivity|]. split; [reflexivity|].
  apply (chat_endpoint_reports_active_provider Demo2.search_one Demo2.str_http
           {| Api.messages := [Demo.user_turn "What is AI?"];
              Api.provider := Some "huggingface" |}
           Demo2.two_providers (Demo.user_turn "What is AI?") "huggingface"
           (Demo2.fixed "local") Demo.ai_doc []);
    [reflexivity | reflexivity | reflexivity | discriminate
    | reflexivity | reflexivity].
Defined.

Lemma switch_endpoint_outcome_witness :
  llms (llm_manager Demo2.two_providers) !! "nonexistent" = None
  ∧ (Api.switch_provider (Vec:=list nat) Demo2.str_http "nonexistent"
       Demo2.two_providers).1
    = Api.HTTPException 500 "400: Provider nonexistent not available".
Proof.
  split; [reflexivity|].
  exact (proj1 (proj1 (switch_endpoint_outcome (Vec:=list nat) Demo2.str_http
                         "nonexistent" Demo2.two_providers) eq_refl)).
Defined.

(** The two endpoints on the deployment with two providers. *)
Example chat_endpoint_degraded_still_reports_context :
  (Api.chat Demo.search Demo2.str_http
     {| Api.messages := [Demo.user_turn "anything"]; Api.provider := None |}
     Demo2.two_providers).1
  = Api.Respond {| Api.response := RAGPipeline.insufficient_information;
                   Api.response_provider := "openai";
                   Api.context_used := true |}.
Proof. reflexivity. Qed.
